(** * Lisk helpers: rule validator, error classes and the blocks repository

    A shallow embedding of
    - the error classes of [helpers/errors/index.js],
    - the validator module that follows them in the same source file
      (rule registry, [Validator], default rules),
    - [BlocksRepository.save] of [db/repos/blocks.js],
    followed by the properties of these programs that the specification
    states. *)

From Stdlib Require Import ZArith String Ascii List Bool Lia.
From stdpp Require Import gmap strings list fin_maps.

Local Open Scope string_scope.
Local Open Scope Z_scope.

(* ===================================================================== *)
(** ** JavaScript values and the operators the rules use                  *)
(* ===================================================================== *)

Module Js.

(** Primitive values.  Numbers are the integer-valued ones; the rules
    below never do arithmetic on them, they only compare. *)
Inductive prim : Type :=
| PUndefined
| PNull
| PBool (b : bool)
| PNum (n : Z)
| PStr (s : string).

(** A value is a primitive or a reference to an object.  A reference is
    known by its identity [id], by whether it is callable, and by the
    primitive that the engine's ToPrimitive conversion yields for it
    (["[object Object]"] for a plain object). *)
Inductive val : Type :=
| Prim (p : prim)
| Ref (id : nat) (callable : bool) (conv : prim).

Coercion Prim : prim >-> val.

Definition undefined : val := Prim PUndefined.
Definition null : val := Prim PNull.

(** The results of [typeof]. *)
Inductive jstype : Type :=
| TUndefined | TObject | TBoolean | TNumber | TString | TFunction.

Definition typeof_prim (p : prim) : jstype :=
  match p with
  | PUndefined => TUndefined
  | PNull => TObject
  | PBool _ => TBoolean
  | PNum _ => TNumber
  | PStr _ => TString
  end.

Definition typeof (v : val) : jstype :=
  match v with
  | Prim p => typeof_prim p
  | Ref _ callable _ => if callable then TFunction else TObject
  end.

Definition type_name (t : jstype) : string :=
  match t with
  | TUndefined => "undefined"
  | TObject => "object"
  | TBoolean => "boolean"
  | TNumber => "number"
  | TString => "string"
  | TFunction => "function"
  end.

Definition jstype_eqb (a b : jstype) : bool :=
  match a, b with
  | TUndefined, TUndefined | TObject, TObject | TBoolean, TBoolean
  | TNumber, TNumber | TString, TString | TFunction, TFunction => true
  | _, _ => false
  end.

(** [typeof v] as the string the program sees. *)
Definition typeof_str (v : val) : val := Prim (PStr (type_name (typeof v))).

(** [a === b] *)
Definition prim_strict_eq (a b : prim) : bool :=
  match a, b with
  | PUndefined, PUndefined => true
  | PNull, PNull => true
  | PBool x, PBool y => Bool.eqb x y
  | PNum x, PNum y => Z.eqb x y
  | PStr x, PStr y => String.eqb x y
  | _, _ => false
  end.

Definition strict_eq (a b : val) : bool :=
  match a, b with
  | Prim p, Prim q => prim_strict_eq p q
  | Ref i _ _, Ref j _ _ => Nat.eqb i j
  | _, _ => false
  end.

(** Truthiness ([ToBoolean]). *)
Definition to_boolean (v : val) : bool :=
  match v with
  | Prim PUndefined | Prim PNull => false
  | Prim (PBool b) => b
  | Prim (PNum n) => negb (Z.eqb n 0)
  | Prim (PStr s) => negb (String.eqb s EmptyString)
  | Ref _ _ _ => true
  end.

Definition to_primitive (v : val) : prim :=
  match v with
  | Prim p => p
  | Ref _ _ conv => conv
  end.

(** Numbers as the comparison operators see them. *)
Inductive jsnum : Type :=
| NaN
| Fin (z : Z).

Definition digit_of (c : ascii) : option Z :=
  let n := Z.of_nat (nat_of_ascii c) in
  if (48 <=? n) && (n <=? 57) then Some (n - 48) else None.

Fixpoint digits_value (acc : Z) (s : string) : option Z :=
  match s with
  | EmptyString => Some acc
  | String c rest =>
      match digit_of c with
      | Some d => digits_value (10 * acc + d) rest
      | None => None
      end
  end.

(** [ToNumber] on a string, for the numerals of the integer number
    domain: the empty string is 0, an optionally signed run of decimal
    digits is its value, every other string is NaN. *)
Definition string_to_number (s : string) : jsnum :=
  match s with
  | EmptyString => Fin 0
  | String c rest =>
      if Ascii.eqb c "-"%char then
        match rest with
        | EmptyString => NaN
        | _ => match digits_value 0 rest with Some n => Fin (- n) | None => NaN end
        end
      else if Ascii.eqb c "+"%char then
        match rest with
        | EmptyString => NaN
        | _ => match digits_value 0 rest with Some n => Fin n | None => NaN end
        end
      else match digits_value 0 s with Some n => Fin n | None => NaN end
  end.

Definition to_number (p : prim) : jsnum :=
  match p with
  | PUndefined => NaN
  | PNull => Fin 0
  | PBool b => Fin (if b then 1 else 0)
  | PNum n => Fin n
  | PStr s => string_to_number s
  end.

(** The abstract relational comparison [x < y] on primitives: [None] is
    the engine's "undefined" answer (a NaN took part). *)
Definition lt_prim (x y : prim) : option bool :=
  match x, y with
  | PStr a, PStr b => Some (String.ltb a b)
  | _, _ =>
      match to_number x, to_number y with
      | Fin a, Fin b => Some (Z.ltb a b)
      | _, _ => None
      end
  end.

(** [a < b], [a > b], [a <= b], [a >= b] *)
Definition js_lt (a b : val) : bool :=
  match lt_prim (to_primitive a) (to_primitive b) with
  | Some r => r
  | None => false
  end.

Definition js_gt (a b : val) : bool :=
  match lt_prim (to_primitive b) (to_primitive a) with
  | Some r => r
  | None => false
  end.

Definition js_le (a b : val) : bool :=
  match lt_prim (to_primitive b) (to_primitive a) with
  | Some r => negb r
  | None => false
  end.

Definition js_ge (a b : val) : bool :=
  match lt_prim (to_primitive a) (to_primitive b) with
  | Some r => negb r
  | None => false
  end.

End Js.

(* ===================================================================== *)
(** ** helpers/errors/index.js: the error classes                         *)
(* ===================================================================== *)

Module Errors.

(** The built-in error constructors the programs meet and the classes the
    module exports. *)
Inductive error_class : Type :=
| ClsError
| ClsTypeError
| ClsRangeError
| LiskError
| HTTPServerError
| InvalidArgumentError
| ParamValidationError
| SQLError.

(** [class C extends P] *)
Definition parent (c : error_class) : option error_class :=
  match c with
  | ClsError => None
  | ClsTypeError | ClsRangeError => Some ClsError
  | LiskError => Some ClsError
  | HTTPServerError | InvalidArgumentError
  | ParamValidationError | SQLError => Some LiskError
  end.

Definition error_class_eqb (a b : error_class) : bool :=
  match a, b with
  | ClsError, ClsError | ClsTypeError, ClsTypeError
  | ClsRangeError, ClsRangeError | LiskError, LiskError
  | HTTPServerError, HTTPServerError
  | InvalidArgumentError, InvalidArgumentError
  | ParamValidationError, ParamValidationError
  | SQLError, SQLError => true
  | _, _ => false
  end.

(** [this.name = this.constructor.name] *)
Definition class_name (c : error_class) : string :=
  match c with
  | ClsError => "Error"
  | ClsTypeError => "TypeError"
  | ClsRangeError => "RangeError"
  | LiskError => "LiskError"
  | HTTPServerError => "HTTPServerError"
  | InvalidArgumentError => "InvalidArgumentError"
  | ParamValidationError => "ParamValidationError"
  | SQLError => "SQLError"
  end.

(** An error object: its constructor and its message. *)
Record js_error : Type := mk_error { cls : error_class; message : string }.

(** [e instanceof c]: walk the chain of parents (it is at most three
    classes long). *)
Fixpoint subclass_fuel (n : nat) (c target : error_class) : bool :=
  error_class_eqb c target ||
  match n with
  | O => false
  | S k => match parent c with
           | Some p => subclass_fuel k p target
           | None => false
           end
  end.

Definition instance_of (e : js_error) (c : error_class) : bool :=
  subclass_fuel 3 (cls e) c.

Definition new_Error (msg : string) : js_error := mk_error ClsError msg.
Definition new_TypeError (msg : string) : js_error := mk_error ClsTypeError msg.
Definition new_RangeError (msg : string) : js_error := mk_error ClsRangeError msg.

End Errors.

(* ===================================================================== *)
(** ** Objects used as rule tables                                        *)
(* ===================================================================== *)

Module Rules.
Import Js Errors.

(** How a call ends: normally with a value, or by throwing. *)
Inductive completion (A : Type) : Type :=
| Normal (a : A)
| Throw (e : js_error).
Arguments Normal {A} a.
Arguments Throw {A} e.

Definition dquote : string := String "034"%char EmptyString.

(** A rule descriptor object: [{description, aliases, validate, filter}],
    every property optional.  [aliases], when present, is an array of
    names. *)
Record RuleDescriptor : Type := mk_rule {
  description : option string;
  aliases : option (list string);
  validate : option (val -> val -> val);   (* validate(accept, value) *)
  filter : option (val -> val -> val)      (* filter(accept, value) *)
}.

(** What can be handed over as a descriptor and what a rule table can
    hold: a primitive, or a descriptor object. *)
Inductive rule_value : Type :=
| RPrim (p : prim)
| RObject (d : RuleDescriptor).

Definition typeof_rule_value (d : rule_value) : jstype :=
  match d with
  | RPrim p => typeof_prim p
  | RObject _ => TObject
  end.

(** A property of a rule table: a data property made by assignment
    (writable, configurable), or an accessor made by
    [Object.defineProperty(.., {get() { return this[origin]; }})], which
    has no setter and is configurable only when it replaced a data
    property.  A table is the map of the own properties of the object; the
    object itself stands under its original prototype, [Object.prototype]. *)
Inductive prop : Type :=
| DataProp (d : rule_value)
| GetterProp (origin : string) (configurable : bool).

(** The property names that an object inherits from [Object.prototype]. *)
Definition Object_prototype_names : list string :=
  [ "constructor"; "__defineGetter__"; "__defineSetter__"; "hasOwnProperty";
    "__lookupGetter__"; "__lookupSetter__"; "isPrototypeOf";
    "propertyIsEnumerable"; "toString"; "valueOf"; "__proto__";
    "toLocaleString" ].

(** Is [name] one of them: such a name is visible on a table without being
    a property of it.  The lookups [has] and [get] below search the table
    alone; they are the lookups of the code for every name that is not
    inherited. *)
Definition inherited (name : string) : bool :=
  existsb (String.eqb name) Object_prototype_names.

(** [name in obj], over the own properties of the table.  Under its
    original prototype a table also shows the names of
    [Object_prototype_names], which are no entries of it: what is proved
    below from a name being absent is stated for names that are not
    [inherited]. *)
Definition has (T : gmap string prop) (name : string) : bool :=
  match T !! name with
  | Some _ => true
  | None => false
  end.

(** What a call that exhausts the stack ends with. *)
Definition overflow : completion rule_value :=
  Throw (new_RangeError "Maximum call stack size exceeded").

(** [obj[name]], following forwarding getters; [n] bounds the number of
    nested getter calls, and running out of it is the engine's stack
    overflow. *)
Fixpoint get_fuel (n : nat) (T : gmap string prop) (name : string)
  : completion rule_value :=
  match n with
  | O => overflow
  | S k =>
      match T !! name with
      | None => Normal (RPrim PUndefined)
      | Some (DataProp d) => Normal d
      | Some (GetterProp origin _) => get_fuel k T origin
      end
  end.

(** A chain of getters without a cycle is no longer than the table, so
    this bound is reached only by a forwarding cycle
    ([fuel_enough] below). *)
Definition get (T : gmap string prop) (name : string) : completion rule_value :=
  get_fuel (2 + size T) T name.

(** [get_fuel] with a set [B] of names at which the walk is cut short; it
    serves to show that the bound of [get] is never the reason for an
    answer. *)
Fixpoint get_avoiding (n : nat) (B : gset string) (T : gmap string prop)
  (name : string) : completion rule_value :=
  if decide (name ∈ B) then overflow
  else
    match n with
    | O => overflow
    | S k =>
        match T !! name with
        | None => Normal (RPrim PUndefined)
        | Some (DataProp d) => Normal d
        | Some (GetterProp origin _) => get_avoiding k B T origin
        end
    end.

(** Is [name] a forwarding entry of [T]; is it one that cannot be
    redefined. *)
Definition is_getter (T : gmap string prop) (name : string) : bool :=
  match T !! name with
  | Some (GetterProp _ _) => true
  | _ => false
  end.

Definition is_frozen (T : gmap string prop) (name : string) : bool :=
  match T !! name with
  | Some (GetterProp _ false) => true
  | _ => false
  end.

(** [obj[name] = d] in strict mode.  An own accessor has no setter, so the
    assignment throws; an own data property is overwritten; a name that is
    not an own property becomes one, except [__proto__]: for it the
    assignment runs the setter inherited from [Object.prototype], which
    stores no property (it makes [d] the prototype of the object, and that
    change is beyond a table of own properties). *)
Definition assign (T : gmap string prop) (name : string) (d : rule_value)
  : gmap string prop * completion unit :=
  match T !! name with
  | Some (GetterProp _ _) =>
      (T, Throw (new_TypeError
                   ("Cannot set property " ++ name ++
                    " of #<Object> which has only a getter")))
  | Some (DataProp _) => (<[name := DataProp d]> T, Normal tt)
  | None =>
      if String.eqb name "__proto__" then (T, Normal tt)
      else (<[name := DataProp d]> T, Normal tt)
  end.

(** [Object.defineProperty(obj, name, {get() { return this[origin]; }})].
    Every call passes a new function, so redefining an accessor that is
    not configurable is refused. *)
Definition define_getter (T : gmap string prop) (name origin : string)
  : gmap string prop * completion unit :=
  match T !! name with
  | None => (<[name := GetterProp origin false]> T, Normal tt)
  | Some (DataProp _) => (<[name := GetterProp origin true]> T, Normal tt)
  | Some (GetterProp _ true) => (<[name := GetterProp origin true]> T, Normal tt)
  | Some (GetterProp _ false) =>
      (T, Throw (new_TypeError ("Cannot redefine property: " ++ name)))
  end.

End Rules.

(* ===================================================================== *)
(** ** The validator module                                               *)
(* ===================================================================== *)

Module Validator.
Import Js Errors Rules.

(** The accepted parameter of a rule in a rule set: a value that is not
    invocable, or a function, given by the function object [fn] as a value
    and by what calling it on the field returns for the field's value. *)
Inductive Param : Type :=
| Literal (v : val)
| Computed (fn : val) (f : val -> val).

(** A rule set [{name: accept, ...}], as its entries in enumeration order. *)
Definition RuleSet : Type := list (string * Param).

Module Issue.
Record t : Type := mk { rule : string; accept : val; value : val }.
End Issue.

(** The report object; [empty] is [{}]. *)
Module Report.
Record t : Type := mk {
  isValid : option bool;
  isAsync : option bool;
  issues : option (list Issue.t);
  rules : option RuleSet;
  value : option val
}.
Definition empty : t := mk None None None None None.
End Report.

(** A reporter object: [convert(issues, rules)]. *)
Record Reporter : Type := mk_reporter {
  convert : list Issue.t -> RuleSet -> list Issue.t
}.

(** What [options.reporter] can be: absent, a reporter object, or a
    constructor ([typeof reporter === 'function']) whose instances behave
    as [r]. *)
Inductive reporter_option : Type :=
| ReporterNone
| ReporterObject (r : Reporter)
| ReporterClass (r : Reporter).

(** The options object; flags are kept by their truthiness, an absent
    property is [false] / [None]. *)
Module Options.
Record t : Type := mk {
  forceAsync : bool;
  skipMissed : bool;
  execRules : bool;
  rules : option (gmap string rule_value);
  reporter : reporter_option
}.
Definition empty : t := mk false false false None ReporterNone.
End Options.

(** A validator instance.  [rules] holds the own properties of
    [this.rules]; the prototype of that object is the shared table
    [Validator.prototype.rules], which the functions below receive as [P]. *)
Record t : Type := mk {
  hasError : bool;
  forceAsync : bool;
  skipMissed : bool;
  execRules : bool;
  rules : gmap string prop;
  reporter : option Reporter
}.

(** [Validator.prototype.forceAsync = false] and its siblings. *)
Definition prototype_forceAsync : bool := false.
Definition prototype_skipMissed : bool := false.
Definition prototype_execRules : bool := true.
Definition prototype_reporter : option Reporter := None.

(** Modelled from the spec: [utils.extend] of helpers/validator/utils.js,
    which is not among the sources.  "[rules] passed at construction are
    merged onto (not replacing) a prototype-level base rule set ... with
    instance overrides taking precedence on name collision": every entry
    of the source becomes an own data property of the target; an absent
    source leaves the target as it is. *)
Definition extend_rules (target : gmap string prop)
  (source : option (gmap string rule_value)) : gmap string prop :=
  match source with
  | None => target
  | Some R => (DataProp <$> R) ∪ target
  end.

(** Modelled from the spec: [utils.extend] at its other use,
    [extend({}, this.options, {rules: customRules})]: "a throwaway instance
    from default options merged with [customRules]". *)
Definition extend_options (options : Options.t)
  (customRules : option (gmap string rule_value)) : Options.t :=
  Options.mk (Options.forceAsync options) (Options.skipMissed options)
             (Options.execRules options) customRules (Options.reporter options).

(** [function Validator(options)]; [onInit] does nothing. *)
Definition new_Validator (options : option Options.t) : t :=
  let options := default Options.empty options in
  let reporter :=
    match prototype_reporter with
    | Some r => Some r
    | None =>
        match Options.reporter options with
        | ReporterNone => None
        | ReporterObject r => Some r
        | ReporterClass r => Some r       (* new reporter(this) *)
        end
    end in
  {| hasError := false;
     forceAsync := prototype_forceAsync || Options.forceAsync options;
     skipMissed := prototype_skipMissed || Options.skipMissed options;
     execRules := prototype_execRules || Options.execRules options;
     rules := extend_rules ∅ (Options.rules options);
     reporter := reporter |}.

(** [this.rules] as lookups see it: own properties first, then the
    prototype's. *)
Definition rules_of (P : gmap string prop) (self : t) : gmap string prop :=
  rules self ∪ P.

(** [Validator.prototype.hasRule] *)
Definition hasRule (P : gmap string prop) (self : t) (name : string) : bool :=
  has (rules_of P self) name.

(** [Validator.prototype.getRule] *)
Definition getRule (P : gmap string prop) (self : t) (name : string)
  : completion rule_value :=
  if Bool.eqb (has (rules_of P self) name) false then
    Throw (new_Error ("Rule " ++ dquote ++ name ++ dquote ++ " is not defined"))
  else get (rules_of P self) name.

(** [Validator.addAlias] *)
Definition addAlias (name origin : string) (P : gmap string prop)
  : gmap string prop * completion unit :=
  define_getter P name origin.

(** [descriptor.aliases.forEach(alias => self.addAlias(alias, name))] *)
Fixpoint addAliases (aliases : list string) (name : string) (P : gmap string prop)
  : gmap string prop * completion unit :=
  match aliases with
  | [] => (P, Normal tt)
  | alias :: rest =>
      match addAlias alias name P with
      | (P1, Normal _) => addAliases rest name P1
      | (P1, Throw e) => (P1, Throw e)
      end
  end.

(** [Validator.addRule] *)
Definition addRule (name : string) (descriptor : rule_value) (P : gmap string prop)
  : gmap string prop * completion unit :=
  if negb (jstype_eqb (typeof_rule_value descriptor) TObject) then
    (P, Throw (new_Error "Rule descriptor should be an object"))
  else
    match assign P name descriptor with
    | (P1, Throw e) => (P1, Throw e)
    | (P1, Normal _) =>
        match descriptor with
        | RPrim _ =>
            (* only null gets here: descriptor.hasOwnProperty *)
            (P1, Throw (new_TypeError
                          "Cannot read properties of null (reading 'hasOwnProperty')"))
        | RObject d =>
            match aliases d with
            | Some l => addAliases l name P1
            | None => (P1, Normal tt)
            end
        end
    end.

(** [Validator.options] *)
Definition options : Options.t :=
  Options.mk false false true None ReporterNone.

(** *** Default rules *)

Definition defaults : RuleDescriptor :=
  mk_rule (Some "Set default value if passed value is undefined") None None
    (Some (fun accept value =>
             if strict_eq (typeof_str value) (Prim (PStr "undefined"))
             then accept else value)).

Definition type : RuleDescriptor :=
  mk_rule (Some "Check value type") None
    (Some (fun accept value =>
             typeof_str (Prim (PBool (strict_eq value accept)))))
    None.

Definition equal : RuleDescriptor :=
  mk_rule (Some "Check if value equals acceptable value") None
    (Some (fun accept value => Prim (PBool (strict_eq value accept))))
    None.

Definition notEqual : RuleDescriptor :=
  mk_rule (Some "Check if value not equals acceptable value") None
    (Some (fun accept value =>
             typeof_str (Prim (PBool (negb (strict_eq value accept))))))
    None.

Definition greater : RuleDescriptor :=
  mk_rule (Some "Check if value is greater then acceptable value")
    (Some [">"; "gt"])
    (Some (fun accept value => Prim (PBool (js_gt (typeof_str value) accept))))
    None.

Definition greaterOrEqual : RuleDescriptor :=
  mk_rule (Some "Check if value is greater then or equal acceptable value")
    (Some [">="; "gte"])
    (Some (fun accept value => Prim (PBool (js_ge (typeof_str value) accept))))
    None.

Definition less : RuleDescriptor :=
  mk_rule (Some "Check if value is less then acceptable value")
    (Some ["<"; "lt"])
    (Some (fun accept value => Prim (PBool (js_lt (typeof_str value) accept))))
    None.

Definition lessOrEqual : RuleDescriptor :=
  mk_rule (Some "Check if value is less then or equal acceptable value")
    (Some ["<="; "lte"])
    (Some (fun accept value => Prim (PBool (js_le (typeof_str value) accept))))
    None.

(** The [Validator.addRule(...)] calls of the module body, in order. *)
Definition default_rules : list (string * rule_value) :=
  [ ("defaults", RObject defaults);
    ("type", RObject type);
    ("equal", RObject equal);
    ("notEqual", RObject notEqual);
    ("greater", RObject greater);
    ("greaterOrEqual", RObject greaterOrEqual);
    ("less", RObject less);
    ("lessOrEqual", RObject lessOrEqual) ].

(** A run of [addRule] calls; the first one that throws ends it. *)
Fixpoint add_rules (l : list (string * rule_value)) (P : gmap string prop)
  : gmap string prop * completion unit :=
  match l with
  | [] => (P, Normal tt)
  | (name, d) :: rest =>
      match addRule name d P with
      | (P1, Normal _) => add_rules rest P1
      | (P1, Throw e) => (P1, Throw e)
      end
  end.

(** [Validator.prototype.rules] once the module is loaded: it starts as
    [{}] and receives the default rules. *)
Definition prototype_rules : gmap string prop :=
  fst (add_rules default_rules ∅).

(** Calls that change the shared table after the module is loaded. *)
Inductive registry_call : Type :=
| CallAddRule (name : string) (descriptor : rule_value)
| CallAddAlias (name origin : string).

Definition run_call (c : registry_call) (P : gmap string prop)
  : gmap string prop * completion unit :=
  match c with
  | CallAddRule name d => addRule name d P
  | CallAddAlias name origin => addAlias name origin P
  end.

(** The table after a sequence of calls, each made whether or not the one
    before it threw. *)
Fixpoint run_calls (cs : list registry_call) (P : gmap string prop)
  : gmap string prop :=
  match cs with
  | [] => P
  | c :: rest => run_calls rest (fst (run_call c P))
  end.


(** *** [Validator.prototype.validate] *)

(** What [field.validate(finish)] does with [finish]: it calls it once
    before returning, or it returns first and calls it once on a later
    tick. *)
Inductive FieldRun : Type :=
| Completes (err : option js_error) (issues : list Issue.t) (output : val)
| Suspends (err : option js_error) (issues : list Issue.t) (output : val).

(** What a call does besides returning: the [onEnd] hook, the caller's
    callback, and timers set with [setTimeout(task, delay)]. *)
Inductive Action : Type :=
| OnEnd
| Callback (err : option js_error) (report : Report.t) (output : val).

Inductive Event : Type :=
| EvDo (a : Action)
| EvSetTimeout (task : list Action) (delay : Z).

(** The variables of one [validate] call that [finish] closes over. *)
Record Locals : Type := mk_locals {
  async : bool;
  finished : bool;
  report : Report.t
}.

(** [function finish(err, issues, output)]; [callback] tells whether a
    callback was supplied. *)
Definition finish (self : t) (rules : RuleSet) (callback : bool) (st : Locals)
  (err : option js_error) (issues : list Issue.t) (output : val)
  : Locals * list Event * completion unit :=
  let is_valid := Nat.eqb (length issues) 0 in
  let issues :=
    match reporter self with
    | Some r => convert r issues rules
    | None => issues
    end in
  let report :=
    Report.mk (Some is_valid) (Some (async st)) (Some issues) (Some rules)
              (Some output) in
  let st := mk_locals (async st) true report in
  if negb callback then
    match err with
    | Some e => (st, [], Throw e)
    | None =>
        if async st
        then (st, [], Throw (new_Error "Async validation without callback"))
        else (st, [], Normal tt)
    end
  else if async st || negb callback || negb (forceAsync self) then
    (st, [EvDo OnEnd; EvDo (Callback err report output)], Normal tt)
  else
    (st, [EvSetTimeout [OnEnd; Callback err report output] 1], Normal tt).

(** One [validate] call as seen from outside: how it ends, what happened
    before it ended, and, when the field suspended, what the later call of
    [finish] does ([resumed]). *)
Record Outcome : Type := mk_outcome {
  result : completion Report.t;
  events : list Event;
  resumed : option (Locals * list Event * completion unit)
}.

(** The report that [finish] fills in. *)
Definition report_of (self : t) (rules : RuleSet) (async : bool)
  (issues : list Issue.t) (output : val) : Report.t :=
  Report.mk (Some (Nat.eqb (length issues) 0)) (Some async)
    (Some (match reporter self with
           | Some r => convert r issues rules
           | None => issues
           end))
    (Some rules) (Some output).

(** Was the callback invoked before the call returned; was a timer set. *)
Definition is_callback (e : Event) : bool :=
  match e with
  | EvDo (Callback _ _ _) => true
  | _ => false
  end.

Definition is_timer (e : Event) : bool :=
  match e with
  | EvSetTimeout _ _ => true
  | _ => false
  end.

Definition called_inline (o : Outcome) : bool := existsb is_callback (events o).
Definition deferred (o : Outcome) : bool := existsb is_timer (events o).

(** The body of [Validator.prototype.validate] after the field has been
    created; [run] is what [field.validate(finish)] does.  What [finish]
    throws leaves [field.validate] and [validate] with it. *)
Definition validate_field (self : t) (run : FieldRun) (rules : RuleSet)
  (callback : bool) : Outcome :=
  let st := mk_locals false false Report.empty in       (* async = false *)
  match run with
  | Completes err issues output =>
      match finish self rules callback st err issues output with
      | (st, evs, Throw e) => mk_outcome (Throw e) evs None
      | (st, evs, Normal _) =>
          let st := mk_locals true (finished st) (report st) in   (* async = true *)
          if negb callback && negb (finished st)
          then mk_outcome (Throw (new_Error "Validation not finished")) evs None
          else mk_outcome (Normal (report st)) evs None
      end
  | Suspends err issues output =>
      let st := mk_locals true (finished st) (report st) in       (* async = true *)
      let later := finish self rules callback st err issues output in
      if negb callback && negb (finished st)
      then mk_outcome (Throw (new_Error "Validation not finished")) [] (Some later)
      else mk_outcome (Normal (report st)) [] (Some later)
  end.

(** *** The field *)

Module Field.

(** Modelled from the spec: the resolution of an accepted parameter in
    [Field.prototype.validate] of helpers/validator/field.js, which is not
    among the sources.  "If [execRules] is enabled and the accepted
    parameter for a rule is itself invocable, it is first invoked (with the
    field as context) to resolve the actual accepted value." *)
Definition resolve (self : t) (p : Param) (value : val) : val :=
  match p with
  | Literal v => v
  | Computed fn f => if execRules self then f value else fn
  end.

(** Modelled from the spec: the loop of [Field.prototype.validate] of
    helpers/validator/field.js, which is not among the sources.
    "[validate(finish)] iterates over every entry in the ruleset;
    filter-kind rules replace [this.value] with the filter's return value;
    validate-kind rules produce a boolean; on failure, an issue record is
    appended capturing the rule name, accepted parameter, and current
    value; a rule name absent from the registry is either skipped (when
    [skipMissed] is set) or treated as a hard failure (an error is raised
    to the completion callback) otherwise."  The hard failure is the error
    of [getRule]; a name that resolves to [undefined] or [null] fails when
    its properties are read, and any other primitive has neither function.
    The result is what [finish] receives. *)
Fixpoint iterate (P : gmap string prop) (self : t) (rs : RuleSet)
  (value : val) (issues : list Issue.t)
  : option js_error * list Issue.t * val :=
  match rs with
  | [] => (None, issues, value)
  | (name, p) :: rest =>
      if negb (hasRule P self name) && skipMissed self then
        iterate P self rest value issues
      else
        match getRule P self name with
        | Throw e => (Some e, issues, value)
        | Normal (RPrim PUndefined) =>
            (Some (new_TypeError "Cannot read properties of undefined"), issues, value)
        | Normal (RPrim PNull) =>
            (Some (new_TypeError "Cannot read properties of null"), issues, value)
        | Normal (RPrim _) => iterate P self rest value issues
        | Normal (RObject d) =>
            let accept := resolve self p value in
            let value :=
              match Rules.filter d with
              | Some f => f accept value
              | None => value
              end in
            let issues :=
              match Rules.validate d with
              | Some g =>
                  if to_boolean (g accept value) then issues
                  else (issues ++ [Issue.mk name accept value])%list
              | None => issues
              end in
            iterate P self rest value issues
        end
  end.

(** Modelled from the spec: when an entry of a rule set is the "hard
    failure" of the loop above. *)
Definition hard_failure (P : gmap string prop) (self : t) (name : string) : bool :=
  if negb (hasRule P self name) && skipMissed self then false
  else
    match getRule P self name with
    | Throw _ => true
    | Normal (RPrim PUndefined) | Normal (RPrim PNull) => true
    | Normal _ => false
    end.

(** Modelled from the spec: [Field.prototype.validate] of
    helpers/validator/field.js, which is not among the sources.
    "[finish(err, issues, value)] is invoked exactly once per [validate()]
    call, after all ruleset entries have been processed"; no rule function
    of the model suspends, so the call of [finish] comes before the
    return. *)
Definition validate (P : gmap string prop) (self : t) (value : val)
  (rules : RuleSet) : FieldRun :=
  match iterate P self rules value [] with
  | (err, issues, output) => Completes err issues output
  end.

End Field.

(** [Validator.prototype.validate(value, rules, callback)]:
    [createField(null, value, rules)], then the body above. *)
Definition prototype_validate (P : gmap string prop) (self : t) (value : val)
  (rules : RuleSet) (callback : bool) : Outcome :=
  validate_field self (Field.validate P self value rules) rules callback.

(** The third argument of the static [validate]. *)
Inductive custom_argument : Type :=
| CustomUndefined
| CustomRules (R : gmap string rule_value)
| CustomFunction.

(** [Validator.validate(value, rules, customRules, callback)]; [opts] is
    the current [Validator.options]. *)
Definition validate (P : gmap string prop) (opts : Options.t) (value : val)
  (rules : RuleSet) (customRules : custom_argument) (callback : bool) : Outcome :=
  let '(customRules, callback) :=
    match customRules with
    | CustomFunction => (Some ∅, true)
    | CustomRules R => (Some R, callback)
    | CustomUndefined => (None, callback)
    end in
  let instance := new_Validator (Some (extend_options opts customRules)) in
  prototype_validate P instance value rules callback.

End Validator.

(* ===================================================================== *)
(** ** db/repos/blocks.js: [BlocksRepository.save]                        *)
(* ===================================================================== *)

Module Blocks.
Import Errors Rules.

(** Values that a block object holds: primitives, byte buffers, and
    references to other objects of the store (the transactions of a block,
    say). *)
Inductive value : Type :=
| Undefined
| Null
| Bool (b : bool)
| Num (n : Z)
| Str (s : string)
| Buf (bytes : list Z)
| Obj (l : nat).

(** The store is a [gmap nat (gmap string value)]: every object lives at a
    location and is shared by all the references to it. *)

(** [this.dbFields] *)
Definition dbFields : list string :=
  [ "id"; "version"; "timestamp"; "height"; "previousBlock";
    "numberOfTransactions"; "totalAmount"; "totalFee"; "reward";
    "payloadLength"; "payloadHash"; "generatorPublicKey"; "blockSignature" ].

Definition hex_digit (c : ascii) : option Z :=
  let n := Z.of_nat (nat_of_ascii c) in
  if (48 <=? n) && (n <=? 57) then Some (n - 48)
  else if (97 <=? n) && (n <=? 102) then Some (n - 87)
  else if (65 <=? n) && (n <=? 70) then Some (n - 55)
  else None.

(** Hex decoding as [Buffer.from(s, 'hex')] does it: pairs of hex digits,
    up to the first pair that is not one. *)
Fixpoint hex_decode (s : string) : list Z :=
  match s with
  | String a (String b rest) =>
      match hex_digit a, hex_digit b with
      | Some x, Some y => (16 * x + y) :: hex_decode rest
      | _, _ => []
      end
  | _ => []
  end.

(** [Buffer.from(v, 'hex')]: a string is decoded and a buffer is copied;
    [undefined], [null], a boolean and a number are refused with a
    [TypeError].  An object of the store is refused here as well, which is
    what [Buffer.from] does with a plain object; it accepts an array or an
    array-like object, so the properties below that rest on a refusal are
    stated for fields that hold no object ([refused]). *)
Definition Buffer_from_hex (v : value) : completion value :=
  match v with
  | Str s => Normal (Buf (hex_decode s))
  | Buf bytes => Normal (Buf bytes)
  | _ => Throw (new_TypeError
                  "The first argument must be of type string or an instance of Buffer")
  end.

(** The three columns that [save] decodes. *)
Definition hex_fields : list string :=
  [ "payloadHash"; "generatorPublicKey"; "blockSignature" ].

(** The values that [Buffer.from] refuses whatever else it is given:
    [undefined], [null], booleans and numbers. *)
Definition refused (v : value) : bool :=
  match v with
  | Undefined | Null | Bool _ | Num _ => true
  | Str _ | Buf _ | Obj _ => false
  end.

Definition is_object (v : value) : bool :=
  match v with
  | Obj _ => true
  | _ => false
  end.

(** [block.name] *)
Definition read (h : gmap nat (gmap string value)) (block : value) (name : string)
  : completion value :=
  match block with
  | Undefined => Throw (new_TypeError ("Cannot read properties of undefined (reading '" ++ name ++ "')"))
  | Null => Throw (new_TypeError ("Cannot read properties of null (reading '" ++ name ++ "')"))
  | Obj l =>
      match h !! l with
      | Some o => Normal (default Undefined (o !! name))
      | None => Normal Undefined
      end
  | _ => Normal Undefined
  end.

(** The own properties that [Object.assign({}, block)] copies; those of a
    primitive play no part in what follows. *)
Definition own_properties (h : gmap nat (gmap string value)) (block : value)
  : gmap string value :=
  match block with
  | Obj l => default ∅ (h !! l)
  | _ => ∅
  end.

Definition truthy (v : value) : bool :=
  match v with
  | Undefined | Null => false
  | Bool b => b
  | Num n => negb (Z.eqb n 0)
  | Str s => negb (String.eqb s EmptyString)
  | Buf _ | Obj _ => true
  end.

(** [obj.name = v] on the object at [l]. *)
Definition write (h : gmap nat (gmap string value)) (l : nat) (name : string)
  (v : value) : gmap nat (gmap string value) :=
  <[l := <[name := v]> (default ∅ (h !! l))]> h.

(** [saveBlock.name = Buffer.from(block.name, 'hex')] *)
Definition convert_field (h : gmap nat (gmap string value)) (saveBlock : nat)
  (block : value) (name : string)
  : gmap nat (gmap string value) * completion unit :=
  match read h block name with
  | Throw e => (h, Throw e)
  | Normal v =>
      match Buffer_from_hex v with
      | Throw e => (h, Throw e)
      | Normal b => (write h saveBlock name b, Normal tt)
      end
  end.

(** What [pgp.helpers.insert(saveBlock, cs.insert)] reads: the columns of
    [dbFields]. *)
Definition insert_values (h : gmap nat (gmap string value)) (saveBlock : nat)
  : list (string * option value) :=
  map (fun c => (c, default ∅ (h !! saveBlock) !! c)) dbFields.

(** [save(block)]: returns the store after the call and, when nothing
    threw, the location of [saveBlock] with the column values handed to
    the insert helper. *)
Definition save (h : gmap nat (gmap string value)) (block : value)
  : gmap nat (gmap string value) * completion (nat * list (string * option value)) :=
  let saveBlock := fresh (dom h) in
  let h := <[saveBlock := own_properties h block]> h in     (* Object.assign({}, block) *)
  match convert_field h saveBlock block "payloadHash" with
  | (h, Throw e) => (h, Throw e)
  | (h, Normal _) =>
  match convert_field h saveBlock block "generatorPublicKey" with
  | (h, Throw e) => (h, Throw e)
  | (h, Normal _) =>
  match convert_field h saveBlock block "blockSignature" with
  | (h, Throw e) => (h, Throw e)
  | (h, Normal _) =>
  match read h block "reward" with
  | Throw e => (h, Throw e)
  | Normal r =>
      let h := write h saveBlock "reward" (if truthy r then r else Num 0) in
      (h, Normal (saveBlock, insert_values h saveBlock))
  end end end end.

End Blocks.

(* ===================================================================== *)
(** ** The validator module: field properties and delivered actions       *)
(* ===================================================================== *)

Module FieldProperty.
Import Js.

(** The functions installed with [Validator.fieldProperty], as functions
    of [this.value]. *)

(** [isObject]: [this.value !== null && typeof this.value === 'object'] *)
Definition isObject (value : val) : bool :=
  negb (strict_eq value null)
  && strict_eq (typeof_str value) (Prim (PStr "object")).

(** [isUndefined]: [typeof this.value === 'undefined'] *)
Definition isUndefined (value : val) : bool :=
  strict_eq (typeof_str value) (Prim (PStr "undefined")).

(** [isEmpty] *)
Definition isEmpty (value : val) : bool :=
  strict_eq (typeof_str value) (Prim (PStr "undefined"))
  || strict_eq value null
  || strict_eq value (Prim (PStr EmptyString)).

End FieldProperty.

Module Delivery.
Import Validator.

(** The hook and callback invocations that a list of events stands for,
    the tasks of its timers included, in the order they run. *)
Definition actions_of (evs : list Event) : list Action :=
  flat_map (fun e => match e with
                     | EvDo a => [a]
                     | EvSetTimeout task _ => task
                     end) evs.

(** All of them for one [validate] call: those before it returned and its
    timers, then those of the later call of [finish] when the field
    suspended. *)
Definition all_actions (o : Outcome) : list Action :=
  (actions_of (events o) ++
   match resumed o with
   | Some (_, evs, _) => actions_of evs
   | None => []
   end)%list.

End Delivery.

(* ===================================================================== *)
(** ** db/repos/blocks.js: the query builders and [getCommonBlock]        *)
(* ===================================================================== *)

Module Queries.
Import Rules.

(** [array.join(sep)] on an array of strings. *)
Fixpoint join (sep : string) (l : list string) : string :=
  match l with
  | [] => EmptyString
  | x :: rest =>
      match rest with
      | [] => x
      | _ => x ++ sep ++ join sep rest
      end
  end.

(** Truthiness of a property that holds a string or is missing. *)
Definition truthy (s : option string) : bool :=
  match s with
  | Some (String _ _) => true
  | _ => false
  end.

(** [array.filter(Boolean)] on an array of strings and [undefined]s. *)
Fixpoint filter_Boolean (l : list (option string)) : list string :=
  match l with
  | [] => []
  | Some (String a s) :: rest => String a s :: filter_Boolean rest
  | _ :: rest => filter_Boolean rest
  end.

(** A string between double quotes. *)
Definition quoted (s : string) : string := dquote ++ s ++ dquote.

(** The number of places of [s] at which [p] occurs. *)
Fixpoint occurrences (p s : string) : nat :=
  match s with
  | EmptyString => if String.prefix p EmptyString then 1%nat else 0%nat
  | String c rest =>
      ((if String.prefix p (String c rest) then 1 else 0) + occurrences p rest)%nat
  end.

(** The parameters [loadBlocksData] looks at. *)
Record LoadParams : Type := mk_load {
  id : option string;
  lastId : option string
}.

(** [Queries.loadBlocksData] *)
Definition loadBlocksData (params : LoadParams) : string :=
  let limitPart :=
    if negb (truthy (id params)) && negb (truthy (lastId params))
    then Some ("WHERE " ++ quoted "b_height" ++ " < ${limit}")
    else None in
  join " "
    (filter_Boolean
       [ Some "SELECT * FROM full_blocks_list";
         limitPart;
         Some (if truthy (id params) || truthy (lastId params)
               then "WHERE" else EmptyString);
         Some (if truthy (id params)
               then quoted "b_id" ++ " = ${id}" else EmptyString);
         Some (if truthy (id params) && truthy (lastId params)
               then " AND " else EmptyString);
         Some (if truthy (lastId params)
               then quoted "b_height" ++ " > ${height} AND " ++
                    quoted "b_height" ++ " < ${limit}"
               else EmptyString);
         Some ("ORDER BY " ++ quoted "b_height" ++ ", " ++ quoted "t_rowId") ]).

(** The parameters [list] looks at: [where] is an array of conditions or
    missing, [sortField] and [sortMethod] are strings or missing. *)
Record ListParams : Type := mk_list {
  where_ : option (Datatypes.list string);
  sortField : option string;
  sortMethod : option string
}.

(** [Queries.list] *)
Definition list (params : ListParams) : string :=
  join " "
    (filter_Boolean
       [ Some "SELECT * FROM blocks_list";
         Some (match where_ params with
               | Some (c :: cs) => "WHERE " ++ join " AND " (c :: cs)
               | _ => EmptyString
               end);
         Some (if truthy (sortField params)
               then "ORDER BY " ++
                    join " " [default EmptyString (sortField params);
                              default EmptyString (sortMethod params)]
               else EmptyString);
         Some "LIMIT ${limit} OFFSET ${offset}" ]).

End Queries.

Module BlocksRepository.
Import Rules Blocks.

Section WithPgp.

(** [this.pgp.as.format(query, values)], for the object [values]. *)
Variable format : string -> gmap string value -> string.

(** [getCommonBlock(params)] for a [params] object at location [params]:
    the store after the call, and the location handed to [db.query] with
    [sql.getCommonBlock]. *)
Definition getCommonBlock (h : gmap nat (gmap string value)) (params : nat)
  : gmap nat (gmap string value) * nat :=
  let o := default ∅ (h !! params) in
  let previousBlock := default Undefined (o !! "previousBlock") in
  let comparePreviousBlock :=
    if Blocks.truthy previousBlock
    then format ("AND " ++ Queries.quoted "previousBlock" ++ " = ${previousBlock}") o
    else EmptyString in
  (write h params "comparePreviousBlock" (Str comparePreviousBlock), params).

End WithPgp.

End BlocksRepository.

(* ===================================================================== *)
(** ** The git helper: [getLastCommit]                                    *)
(* ===================================================================== *)

Module Git.
Import Errors.

(** The text of a JavaScript string: its UTF-16 code units. *)
Definition text : Type := list Z.

Definition text_of_string (s : string) : text :=
  map (fun c => Z.of_nat (nat_of_ascii c)) (list_ascii_of_string s).

(** What [childProcess.spawnSync] returns, as far as the helper reads it:
    the two output buffers, each given by the text that [toString()]
    decodes it to; they are [null] when the process could not be
    started. *)
Record SpawnResult : Type := mk_spawn {
  stdout : option text;
  stderr : option text
}.

(** How the helper ends: with the hash, or by throwing an error of a class
    with a message. *)
Inductive outcome : Type :=
| Returns (hash : text)
| Throws (c : error_class) (message : text).

(** The code units that [String.prototype.trim] removes: the white space
    of the language (tab, vertical tab, form feed, space, no-break space,
    the byte order mark U+FEFF and the other space separators of Unicode)
    and its line terminators (line feed, carriage return, U+2028,
    U+2029). *)
Definition is_space (c : Z) : bool :=
  ((9 <=? c) && (c <=? 13))
  || (c =? 32) || (c =? 160) || (c =? 5760)
  || ((8192 <=? c) && (c <=? 8202))
  || (c =? 8232) || (c =? 8233) || (c =? 8239) || (c =? 8287)
  || (c =? 12288) || (c =? 65279).

Fixpoint trim_start (s : text) : text :=
  match s with
  | [] => []
  | c :: rest => if is_space c then trim_start rest else c :: rest
  end.

Fixpoint trim_end (s : text) : text :=
  match s with
  | [] => []
  | c :: rest =>
      match trim_end rest with
      | [] => if is_space c then [] else [c]
      | kept => c :: kept
      end
  end.

(** [s.trim()] *)
Definition trim (s : text) : text := trim_end (trim_start s).

(** Reading [toString] of [null]. *)
Definition null_read : outcome :=
  Throws ClsTypeError
    (text_of_string "Cannot read properties of null (reading 'toString')").

(** [getLastCommit()], given the result of
    [spawnSync('git', ['rev-parse', 'HEAD'])]. *)
Definition getLastCommit (spawn : SpawnResult) : outcome :=
  match stderr spawn with
  | None => null_read
  | Some e =>
      let err := trim e in
      match err with
      | _ :: _ => Throws ClsError err           (* throw new Error(err) *)
      | [] =>
          match stdout spawn with
          | None => null_read
          | Some out => Returns (trim out)
          end
      end
  end.

End Git.

(* ===================================================================== *)
(** * Properties                                                          *)
(* ===================================================================== *)

Import Js Errors Rules.

(** ** Lookups through forwarding entries *)

Section GetFuel.

Variable T : gmap string prop.

Lemma get_avoiding_empty n x : get_avoiding n ∅ T x = get_fuel n T x.
Proof.
  revert x; induction n as [|n IH]; intros x; simpl.
  - destruct (decide (x ∈ (∅ : gset string))); [set_solver | reflexivity].
  - destruct (decide (x ∈ (∅ : gset string))); [set_solver |].
    destruct (T !! x) as [[d|o c]|]; auto.
Qed.

Lemma get_avoiding_cases n B x :
  (exists r, get_avoiding n B T x = Normal r) \/ get_avoiding n B T x = overflow.
Proof.
  revert x; induction n as [|n IH]; intros x; simpl.
  - destruct (decide (x ∈ B)); right; reflexivity.
  - destruct (decide (x ∈ B)); [right; reflexivity |].
    destruct (T !! x) as [[d|o c]|]; eauto.
Qed.

(** A lookup that succeeds keeps its answer when given more room. *)
Lemma get_avoiding_mono n m B x r :
  (n <= m)%nat -> get_avoiding n B T x = Normal r -> get_avoiding m B T x = Normal r.
Proof.
  revert m x; induction n as [|n IH]; intros m x Hle; simpl.
  - destruct (decide (x ∈ B)); discriminate.
  - destruct m as [|m]; [lia |]. simpl.
    destruct (decide (x ∈ B)); [discriminate |].
    destruct (T !! x) as [[d|o c]|]; auto.
    apply IH; lia.
Qed.

(** ... and when fewer names are cut off. *)
Lemma get_avoiding_subseteq n (B B' : gset string) x r :
  B ⊆ B' -> get_avoiding n B' T x = Normal r -> get_avoiding n B T x = Normal r.
Proof.
  intros Hsub; revert x; induction n as [|n IH]; intros x; simpl.
  - destruct (decide (x ∈ B')); discriminate.
  - destruct (decide (x ∈ B')); [discriminate |].
    destruct (decide (x ∈ B)); [set_solver |].
    destruct (T !! x) as [[d|o c]|]; auto.
Qed.

(** If the walk from the origin of [x] never ends once [x] is cut off, it
    does not end either when [x] is walked through. *)
Lemma get_avoiding_cycle (B : gset string) x o c :
  T !! x = Some (GetterProp o c) ->
  (forall m, get_avoiding m ({[x]} ∪ B) T o = overflow) ->
  forall m y, get_avoiding m ({[x]} ∪ B) T y = overflow ->
              get_avoiding m B T y = overflow.
Proof.
  intros Hx Ho; induction m as [|m IH]; intros y; simpl.
  - destruct (decide (y ∈ B)); reflexivity.
  - destruct (decide (y ∈ {[x]} ∪ B)) as [Hin|Hout].
    + intros _. destruct (decide (y ∈ B)); [reflexivity |].
      assert (y = x).
      { apply elem_of_union in Hin as [Hin|Hin]; [| contradiction].
        apply elem_of_singleton in Hin. exact Hin. }
      subst y. rewrite Hx.
      apply IH, Ho.
    + destruct (decide (y ∈ B)); [set_solver |].
      destruct (T !! y) as [[d|o' c']|]; try discriminate.
      apply IH.
Qed.

(** Once the bound exceeds the number of names that are not cut off, a
    larger bound gives the same answer. *)
Lemma get_avoiding_stable n :
  forall (B : gset string) x m,
    (size (dom T ∖ B) < n)%nat -> (n <= m)%nat ->
    get_avoiding m B T x = get_avoiding n B T x.
Proof.
  induction n as [|n IH]; intros B x m Hsize Hle; [lia |].
  destruct m as [|m]; [lia |]. simpl.
  destruct (decide (x ∈ B)) as [|Hx]; [reflexivity |].
  destruct (T !! x) as [[d|o c]|] eqn:Hlook; try reflexivity.
  assert (Hdom : x ∈ dom T ∖ B).
  { apply elem_of_difference; split; [| exact Hx].
    apply elem_of_dom; eauto. }
  assert (Hsz : (size (dom T ∖ ({[x]} ∪ B)) < n)%nat).
  { assert (Heq : dom T ∖ B = {[x]} ∪ dom T ∖ ({[x]} ∪ B)).
    { apply set_eq; intros y.
      rewrite elem_of_union, !elem_of_difference, elem_of_union, elem_of_singleton.
      destruct (decide (y = x)) as [->|]; [| tauto].
      apply elem_of_difference in Hdom. tauto. }
    rewrite Heq in Hsize.
    rewrite size_union in Hsize
      by (apply disjoint_singleton_l; rewrite elem_of_difference, elem_of_union,
            elem_of_singleton; tauto).
    rewrite size_singleton in Hsize. lia. }
  destruct (get_avoiding_cases n ({[x]} ∪ B) o) as [[r Hr]|Hov].
  - assert (Hn : get_avoiding n B T o = Normal r).
    { eapply get_avoiding_subseteq; [| exact Hr]. apply union_subseteq_r. }
    rewrite Hn. eapply get_avoiding_mono; [| exact Hn]. lia.
  - assert (Hall : forall k, get_avoiding k ({[x]} ∪ B) T o = overflow).
    { intros k. destruct (le_lt_dec n k) as [Hk|Hk].
      - rewrite (IH _ o k Hsz Hk). exact Hov.
      - destruct (get_avoiding_cases k ({[x]} ∪ B) o) as [[r Hr]|]; [| assumption].
        rewrite (get_avoiding_mono k n _ o r) in Hov by (lia || assumption).
        discriminate. }
    rewrite (get_avoiding_cycle B x o c Hlook Hall m o (Hall m)).
    rewrite (get_avoiding_cycle B x o c Hlook Hall n o (Hall n)).
    reflexivity.
Qed.

(** The bound of [get] is enough: any larger one gives the same answer. *)
Lemma fuel_enough n x :
  (size T < n)%nat -> get_fuel n T x = get T x.
Proof.
  intros Hn. unfold get. rewrite <- !get_avoiding_empty.
  assert (Hs : (size (dom T ∖ (∅ : gset string)) <= size T)%nat).
  { rewrite difference_empty_L, size_dom. lia. }
  destruct (le_lt_dec n (2 + size T)) as [Hle|Hlt].
  - symmetry. apply get_avoiding_stable; lia.
  - rewrite (get_avoiding_stable (2 + size T) ∅ x n) by lia. reflexivity.
Qed.

Lemma get_unfold x :
  get T x = match T !! x with
            | None => Normal (RPrim PUndefined)
            | Some (DataProp d) => Normal d
            | Some (GetterProp origin _) => get_fuel (S (size T)) T origin
            end.
Proof. reflexivity. Qed.

(** Reading a forwarding entry is reading its origin. *)
Lemma get_getter x o c :
  T !! x = Some (GetterProp o c) -> get T x = get T o.
Proof.
  intros Hx. rewrite get_unfold, Hx.
  apply fuel_enough. lia.
Qed.

Lemma get_data x d : T !! x = Some (DataProp d) -> get T x = Normal d.
Proof. intros Hx. rewrite get_unfold, Hx. reflexivity. Qed.

Lemma get_absent x : T !! x = None -> get T x = Normal (RPrim PUndefined).
Proof. intros Hx. rewrite get_unfold, Hx. reflexivity. Qed.

End GetFuel.

(** ** The registry: [addRule], [addAlias] *)

Import Validator.


Lemma assign_other P k d name :
  k <> name -> (assign P k d).1 !! name = P !! name.
Proof.
  intros Hne. unfold assign.
  destruct (P !! k) as [[d0|o0 c0]|];
    [| | destruct (String.eqb k "__proto__")]; simpl; try reflexivity;
    apply lookup_insert_ne; exact Hne.
Qed.

Lemma define_getter_other P k origin name :
  k <> name -> (define_getter P k origin).1 !! name = P !! name.
Proof.
  intros Hne. unfold define_getter.
  destruct (P !! k) as [[d0|o0 [|]]|]; simpl; try reflexivity;
    apply lookup_insert_ne; exact Hne.
Qed.


Lemma addAliases_other l origin P name :
  name ∉ l -> (addAliases l origin P).1 !! name = P !! name.
Proof.
  revert P; induction l as [|a l IH]; intros P Hnot; simpl; [reflexivity |].
  apply not_elem_of_cons in Hnot as [Hne Hnot].
  unfold addAlias.
  destruct (define_getter P a origin) as [P1 [u|e]] eqn:Hd; simpl.
  - rewrite IH by exact Hnot.
    change P1 with (P1, @Normal unit u).1. rewrite <- Hd.
    apply define_getter_other. congruence.
  - change P1 with (P1, @Throw unit e).1. rewrite <- Hd.
    apply define_getter_other. congruence.
Qed.





Lemma getRule_present P self name :
  has (rules_of P self) name = true ->
  getRule P self name = get (rules_of P self) name.
Proof. intros H. unfold getRule. rewrite H. reflexivity. Qed.

Lemma rules_of_inherited P self name :
  rules self !! name = None -> rules_of P self !! name = P !! name.
Proof. intros H. unfold rules_of. apply lookup_union_r. exact H. Qed.

Lemma assign_stores P name d :
  is_getter P name = false -> name <> "__proto__" ->
  assign P name d = (<[name := DataProp d]> P, Normal tt).
Proof.
  unfold is_getter, assign. intros Hget Hne.
  destruct (P !! name) as [[d0|o0 c0]|]; try discriminate; try reflexivity.
  destruct (String.eqb_spec name "__proto__"); [contradiction | reflexivity].
Qed.





Lemma define_getter_ok P a origin :
  is_frozen P a = false ->
  (define_getter P a origin).2 = Normal tt
  /\ exists c, (define_getter P a origin).1 !! a = Some (GetterProp origin c).
Proof.
  unfold is_frozen, define_getter.
  destruct (P !! a) as [[d0|o0 [|]]|]; simpl; intros H; try discriminate;
    (split; [reflexivity | eexists; apply lookup_insert_eq]).
Qed.

Lemma addAliases_ok l origin : forall P,
  NoDup l ->
  (forall a, a ∈ l -> is_frozen P a = false) ->
  (addAliases l origin P).2 = Normal tt
  /\ (forall a, a ∈ l ->
        exists c, (addAliases l origin P).1 !! a = Some (GetterProp origin c)).
Proof.
  induction l as [|a l IH]; intros P Hnd Hfree; simpl.
  - split; [reflexivity |]. intros a Ha. inversion Ha.
  - apply NoDup_cons in Hnd as [Hnotin Hnd].
    destruct (define_getter_ok P a origin) as (Hok & c & Hc).
    { apply Hfree. left. }
    pose proof (fun b (Hne : a <> b) => define_getter_other P a origin b Hne) as Hoth.
    unfold addAlias.
    destruct (define_getter P a origin) as [P1 [[]|e]]; simpl in *;
      [| discriminate].
    destruct (IH P1 Hnd) as (Hok' & Hentries).
    { intros b Hb. unfold is_frozen. rewrite Hoth.
      - apply (Hfree b). right. exact Hb.
      - intros ->. contradiction. }
    split; [exact Hok' |].
    intros b Hb. apply elem_of_cons in Hb as [->|Hb].
    + exists c. rewrite addAliases_other by exact Hnotin. exact Hc.
    + apply Hentries. exact Hb.
Qed.

(** C5, as the code has it.  [addRule(name, descriptor)] throws a plain
    [Error] with the message "Rule descriptor should be an object", which
    is not an [InvalidArgumentError], when [typeof descriptor] is not
    ['object'], and leaves the registry as it was.  When the descriptor is
    an object, the name is neither a forwarding entry nor [__proto__]
    (whose assignment stores no property), and the listed aliases are
    distinct names, other than [name], that are not forwarding entries
    fixed earlier, the call returns normally, the descriptor is stored
    under [name], every listed alias is a forwarding entry to [name], and
    no other name changes. *)
Theorem addRule_contract (name : string) (P : gmap string prop) :
  (forall d, typeof_rule_value d <> TObject ->
     addRule name d P = (P, Throw (new_Error "Rule descriptor should be an object"))
     /\ instance_of (new_Error "Rule descriptor should be an object")
          InvalidArgumentError = false)
  /\ (forall desc,
        let l := default [] (aliases desc) in
        let P' := (addRule name (RObject desc) P).1 in
        is_getter P name = false ->
        name <> "__proto__" ->
        NoDup l -> name ∉ l ->
        (forall a, a ∈ l -> is_frozen P a = false) ->
        (addRule name (RObject desc) P).2 = Normal tt
        /\ P' !! name = Some (DataProp (RObject desc))
        /\ (forall a, a ∈ l -> exists c, P' !! a = Some (GetterProp name c))
        /\ (forall k, k <> name -> k ∉ l -> P' !! k = P !! k)).
Proof.
  split.
  - intros d Hty. split; [| reflexivity].
    unfold addRule.
    destruct (jstype_eqb (typeof_rule_value d) TObject) eqn:E; [| reflexivity].
    exfalso. apply Hty. destruct (typeof_rule_value d); simpl in E;
      congruence.
  - intros desc l P' Hget Hproto Hnd Hname Hfree.
    subst P'. unfold addRule. simpl.
    rewrite (assign_stores P name _ Hget Hproto).
    set (P1 := <[name := DataProp (RObject desc)]> P).
    assert (Hoth : forall k, name <> k -> P1 !! k = P !! k).
    { intros k Hk. apply lookup_insert_ne. exact Hk. }
    assert (Hat : P1 !! name = Some (DataProp (RObject desc)))
      by apply lookup_insert_eq.
    subst l. destruct (aliases desc) as [l|]; simpl in *.
    + destruct (addAliases_ok l name P1 Hnd) as (Hok & Hentries).
      { intros a Ha. unfold is_frozen. rewrite Hoth.
        - apply Hfree. exact Ha.
        - intros ->. contradiction. }
      split; [exact Hok |]. split.
      * rewrite addAliases_other by exact Hname. exact Hat.
      * split; [exact Hentries |].
        intros k Hk Hkl. rewrite addAliases_other by exact Hkl.
        apply Hoth. congruence.
    + split; [reflexivity |]. split; [exact Hat |]. split.
      * intros a Ha. inversion Ha.
      * intros k Hk _. apply Hoth. congruence.
Qed.

Lemma addRule_contract_witness :
  (addRule "positive" (RPrim (PNum 42)) prototype_rules
   = (prototype_rules, Throw (new_Error "Rule descriptor should be an object")))
  /\ (addRule "bigger" (RObject (mk_rule None (Some ["more"]) None None))
        prototype_rules).2 = Normal tt.
Proof.
  destruct (addRule_contract "positive" prototype_rules) as [Hguard _].
  destruct (addRule_contract "bigger" prototype_rules) as [_ Hreg].
  split.
  - apply Hguard. simpl. discriminate.
  - apply (Hreg (mk_rule None (Some ["more"]) None None)).
    + vm_compute; reflexivity.
    + discriminate.
    + simpl. apply NoDup_cons. split; [apply not_elem_of_nil | apply NoDup_nil_2].
    + simpl. intros H. apply list_elem_of_singleton in H. discriminate.
    + simpl. intros a Ha. apply list_elem_of_singleton in Ha. subst a.
      vm_compute; reflexivity.
Defined.

(** C5 as the specification words it fails: the error thrown for a
    descriptor that is not an object is not of the [InvalidArgumentError]
    class. *)
Lemma addRule_error_class_counterexample :
  typeof_rule_value (RPrim (PNum 42)) <> TObject
  /\ exists e,
       addRule "positive" (RPrim (PNum 42)) prototype_rules
       = (prototype_rules, Throw e)
       /\ cls e = ClsError
       /\ instance_of e InvalidArgumentError = false.
Proof.
  split; [simpl; discriminate |].
  exists (new_Error "Rule descriptor should be an object").
  repeat split.
Qed.

Lemma addRule_null_unfold (name : string) (P : gmap string prop) :
  addRule name (RPrim PNull) P =
    (if is_getter P name
     then (P, Throw (new_TypeError
                       ("Cannot set property " ++ name ++
                        " of #<Object> which has only a getter")))
     else (if String.eqb name "__proto__" && negb (has P name)
           then P
           else <[name := DataProp (RPrim PNull)]> P,
           Throw (new_TypeError
                    "Cannot read properties of null (reading 'hasOwnProperty')"))).
Proof.
  unfold addRule, assign, is_getter, has. simpl.
  destruct (P !! name) as [[d0|o0 c0]|]; simpl;
    rewrite ?andb_false_r; try reflexivity.
  rewrite andb_true_r. destruct (String.eqb name "__proto__"); reflexivity.
Qed.

(** C9, as the code has it.  For every rule name, [addRule(name, null)]
    passes the guard ([typeof null] is ['object']) and never throws "Rule
    descriptor should be an object".  When the name is a forwarding entry
    of the registry, the assignment [rules[name] = descriptor] itself
    throws a [TypeError], the entry having a getter only, and the registry
    stays as it was.  Otherwise the call throws a [TypeError] at
    [descriptor.hasOwnProperty], after [null] has been stored under the
    name; only for the name [__proto__], when the table has no property of
    that name, nothing is stored: the assignment goes to the inherited
    setter, which makes [null] the prototype of the table and leaves its
    own properties as they were. *)
Theorem addRule_null (name : string) (P : gmap string prop) :
  typeof_rule_value (RPrim PNull) = TObject
  /\ addRule name (RPrim PNull) P =
       (if is_getter P name
        then (P, Throw (new_TypeError
                          ("Cannot set property " ++ name ++
                           " of #<Object> which has only a getter")))
        else (if String.eqb name "__proto__" && negb (has P name)
              then P
              else <[name := DataProp (RPrim PNull)]> P,
              Throw (new_TypeError
                       "Cannot read properties of null (reading 'hasOwnProperty')")))
  /\ (addRule name (RPrim PNull) P).2
     <> Throw (new_Error "Rule descriptor should be an object").
Proof.
  split; [reflexivity |].
  split; [apply addRule_null_unfold |].
  rewrite addRule_null_unfold. destruct (is_getter P name); simpl; discriminate.
Qed.

(** C9 as the specification words it fails for a name that is an alias:
    [addRule('gt', null)] on the default registry ends at the assignment,
    before any property of [null] is read, and stores nothing. *)
Lemma addRule_null_alias_counterexample :
  is_getter prototype_rules "gt" = true
  /\ addRule "gt" (RPrim PNull) prototype_rules =
       (prototype_rules,
        Throw (new_TypeError
                 "Cannot set property gt of #<Object> which has only a getter")).
Proof.
  split; [vm_compute; reflexivity |].
  rewrite addRule_null_unfold.
  replace (is_getter prototype_rules "gt") with true by (vm_compute; reflexivity).
  reflexivity.
Qed.

(** ** [Validator.prototype.validate]: delivery of the result *)

(** C2, as the code has it.  With a callback supplied, [finish] invokes it
    directly when the [async] flag is already set (the field ended after
    [validate()] had returned) or [forceAsync] is not set; for a field that
    ends synchronously this is before [validate()] returns.  Otherwise,
    that is for a synchronous end with [forceAsync] set, the callback is
    put off with [setTimeout(.., 1)]. *)
Theorem callback_delivery (self : Validator.t) (run : FieldRun) (rules : RuleSet) :
  let o := validate_field self run rules true in
  match run with
  | Completes err issues output =>
      let r := report_of self rules false issues output in
      result o = Normal r
      /\ resumed o = None
      /\ events o =
           (if forceAsync self
            then [EvSetTimeout [OnEnd; Callback err r output] 1]
            else [EvDo OnEnd; EvDo (Callback err r output)])
  | Suspends err issues output =>
      let r := report_of self rules true issues output in
      result o = Normal Report.empty
      /\ events o = []
      /\ resumed o = Some (mk_locals true true r,
                           [EvDo OnEnd; EvDo (Callback err r output)],
                           Normal tt)
  end.
Proof.
  destruct run as [err issues output|err issues output]; simpl.
  - unfold validate_field, finish, report_of. simpl.
    destruct (forceAsync self); simpl; repeat split.
  - repeat split.
Qed.

(** C2 as the specification words it fails: a field that ends
    synchronously in a validator with [forceAsync] set does not get its
    callback before [validate()] returns; a timer is set instead. *)
Lemma callback_delivery_counterexample :
  let self := new_Validator (Some (Options.mk true false false None ReporterNone)) in
  let o := validate_field self (Completes None [] (Prim (PNum 5))) [] true in
  let o' := prototype_validate prototype_rules self (Prim (PNum 5))
              [("equal", Literal (Prim (PNum 5)))] true in
  forceAsync self = true
  /\ called_inline o = false /\ deferred o = true
  /\ called_inline o' = false /\ deferred o' = true.
Proof. repeat split. Qed.

(** C3, as the code has it.  Without a callback, a field that ends
    synchronously makes [validate] return the report, or throw the error
    the field reported, whether [forceAsync] is set or not.  "Async
    validation without callback" is thrown by [finish] only when it runs
    after [validate()] has returned, and [validate()] itself has then
    thrown "Validation not finished". *)
Theorem validate_without_callback (self : Validator.t) (run : FieldRun)
  (rules : RuleSet) :
  let o := validate_field self run rules false in
  events o = []
  /\ match run with
     | Completes err issues output =>
         resumed o = None
         /\ result o =
              match err with
              | Some e => Throw e
              | None => Normal (report_of self rules false issues output)
              end
     | Suspends err issues output =>
         result o = Throw (new_Error "Validation not finished")
         /\ resumed o =
              Some (mk_locals true true (report_of self rules true issues output),
                    [],
                    Throw (match err with
                           | Some e => e
                           | None => new_Error "Async validation without callback"
                           end))
     end.
Proof.
  destruct run as [err issues output|err issues output];
    unfold validate_field, finish, report_of; simpl;
    destruct err; simpl; repeat split.
Qed.

(** C3 as the specification words it fails: with [forceAsync] set, no
    callback and a field that ends synchronously, [validate] returns the
    report and throws nothing. *)
Lemma validate_without_callback_counterexample :
  let self := new_Validator (Some (Options.mk true false false None ReporterNone)) in
  let o := validate_field self (Completes None [] (Prim (PNum 5))) [] false in
  let rules := [("equal", Literal (Prim (PNum 5)))] in
  let o' := prototype_validate prototype_rules self (Prim (PNum 5)) rules false in
  forceAsync self = true
  /\ result o = Normal (Report.mk (Some true) (Some false) (Some []) (Some [])
                          (Some (Prim (PNum 5))))
  /\ result o' = Normal (Report.mk (Some true) (Some false) (Some []) (Some rules)
                           (Some (Prim (PNum 5))))
  /\ result o <> Throw (new_Error "Async validation without callback").
Proof.
  split; [reflexivity |]. split; [reflexivity |].
  split; [vm_compute; reflexivity | discriminate].
Qed.

(** ** The field: failures become issues *)

Section FieldIteration.

Variable P : gmap string prop.
Variable self : Validator.t.

(** The issues found so far are only ever extended. *)
Lemma iterate_issues rs : forall value acc,
  Field.iterate P self rs value acc =
  (let '(err, issues, output) := Field.iterate P self rs value [] in
   (err, (acc ++ issues)%list, output)).
Proof.
  induction rs as [|[name p] rest IH]; intros value acc; simpl.
  - rewrite app_nil_r. reflexivity.
  - destruct (negb (hasRule P self name) && skipMissed self); [apply IH |].
    destruct (getRule P self name) as [[[| |b|n|s]|d]|e];
      try (rewrite app_nil_r; reflexivity); try apply IH.
    destruct (Rules.validate d) as [g|]; [| apply IH].
    destruct (to_boolean _); [apply IH |].
    rewrite IH. rewrite (IH _ (_ :: nil)).
    destruct (Field.iterate P self rest _ []) as [[err issues] output].
    rewrite <- app_assoc. reflexivity.
Qed.

(** Iterating over a rule set is iterating over its first part and then,
    unless that ended with an error, over the rest. *)
Lemma iterate_app (pre post : RuleSet) : forall value acc,
  Field.iterate P self (pre ++ post)%list value acc =
  match Field.iterate P self pre value acc with
  | (None, issues, output) => Field.iterate P self post output issues
  | (Some e, issues, output) => (Some e, issues, output)
  end.
Proof.
  induction pre as [|[name p] rest IH]; intros value acc; simpl.
  - reflexivity.
  - destruct (negb (hasRule P self name) && skipMissed self); [apply IH |].
    destruct (getRule P self name) as [[[| |b|n|s]|d]|e];
      try reflexivity; apply IH.
Qed.

(** A rule set without a configuration error is iterated to its end. *)
Lemma iterate_total rs : forall value acc,
  Forall (fun entry => Field.hard_failure P self entry.1 = false) rs ->
  exists issues output, Field.iterate P self rs value acc = (None, issues, output).
Proof.
  induction rs as [|[name p] rest IH]; intros value acc HF; simpl.
  - eauto.
  - inversion HF as [|? ? Hhd Htl]; subst. simpl in Hhd.
    unfold Field.hard_failure in Hhd.
    destruct (negb (hasRule P self name) && skipMissed self); [apply IH, Htl |].
    destruct (getRule P self name) as [[[| |b|n|s]|d]|e];
      try discriminate; apply IH, Htl.
Qed.

(** A field that ends without an error makes [validate] return its report,
    with or without a callback. *)
Lemma validate_field_returns rules issues output callback :
  result (validate_field self (Completes None issues output) rules callback)
  = Normal (report_of self rules false issues output).
Proof.
  unfold validate_field, finish, report_of.
  destruct callback; simpl; [destruct (forceAsync self) |]; reflexivity.
Qed.

End FieldIteration.

(** C4, as the code has it.  Take a rule set free of configuration errors
    and any entry of it whose rule has a [validate] predicate that returns
    [false] at the value the field has when the entry is reached.  Then
    [validate] returns a report (nothing is thrown) with [isValid ===
    false], and the entries after it are still evaluated.  The field hands
    to [finish] a list that holds an issue with the entry's rule name,
    accepted parameter and value, followed by the issues of the later
    entries; the report carries that list itself when the validator has no
    reporter, and then holds the issue, and carries
    [reporter.convert(issues, rules)] in its place when it has one. *)
Theorem failed_rule_is_reported
  (P : gmap string prop) (self : Validator.t) (value : val)
  (pre post : RuleSet) (name : string) (p : Param)
  (d : RuleDescriptor) (g : val -> val -> val) (callback : bool)
  (issues0 : list Issue.t) (v0 : val) :
  let rules := (pre ++ (name, p) :: post)%list in
  Forall (fun entry => Field.hard_failure P self entry.1 = false) rules ->
  getRule P self name = Normal (RObject d) ->
  Rules.validate d = Some g ->
  Field.iterate P self pre value [] = (None, issues0, v0) ->
  let accept := Field.resolve self p v0 in
  let v1 := match Rules.filter d with Some f => f accept v0 | None => v0 end in
  g accept v1 = Prim (PBool false) ->
  exists issues1 output report,
    Field.iterate P self post v1 [] = (None, issues1, output)
    /\ result (prototype_validate P self value rules callback) = Normal report
    /\ Report.isValid report = Some false
    /\ Report.value report = Some output
    /\ let raw := (issues0 ++ Issue.mk name accept v1 :: issues1)%list in
       Report.issues report
       = Some (match reporter self with
               | Some r => convert r raw rules
               | None => raw
               end)
       /\ (reporter self = None ->
           exists issues,
             Report.issues report = Some issues
             /\ In (Issue.mk name accept v1) issues
             /\ Issue.rule (Issue.mk name accept v1) = name).
Proof.
  intros rules HF Hget Hval Hpre accept v1 Hfalse.
  assert (HFpost : Forall (fun entry => Field.hard_failure P self entry.1 = false) post).
  { unfold rules in HF. apply Forall_app in HF as [_ HF].
    inversion HF; assumption. }
  destruct (iterate_total P self post v1 [] HFpost) as (issues1 & output & Hpost).
  set (raw := (issues0 ++ Issue.mk name accept v1 :: issues1)%list).
  exists issues1, output, (report_of self rules false raw output).
  split; [exact Hpost |].
  assert (Hhas : negb (hasRule P self name) && skipMissed self = false).
  { unfold getRule in Hget. unfold hasRule.
    destruct (has (rules_of P self) name); [reflexivity | discriminate]. }
  assert (Hrun : Field.iterate P self rules value [] = (None, raw, output)).
  { unfold rules, raw. rewrite iterate_app, Hpre. simpl.
    rewrite Hhas, Hget, Hval. fold accept. fold v1. rewrite Hfalse. simpl.
    rewrite iterate_issues, Hpost. rewrite <- app_assoc. reflexivity. }
  split; [| split; [| split; [| split]]].
  - unfold prototype_validate, Field.validate. rewrite Hrun.
    apply validate_field_returns.
  - unfold report_of, raw. simpl. rewrite length_app. simpl.
    destruct (length issues0 + S (length issues1))%nat eqn:E; [lia | reflexivity].
  - reflexivity.
  - reflexivity.
  - intros Hrep. exists raw. unfold report_of. simpl. rewrite Hrep.
    split; [reflexivity |]. split; [| reflexivity].
    apply in_or_app. right. left. reflexivity.
Qed.

Lemma failed_rule_is_reported_witness :
  let P := prototype_rules in
  let self := new_Validator None in
  let value := Prim (PNum 7) in
  let pre := [("equal", Literal (Prim (PNum 1)))] in
  let post := [("less", Literal (Prim (PNum 9)))] in
  let rules := (pre ++ ("greater", Literal (Prim (PNum 3))) :: post)%list in
  let issue := Issue.mk "greater" (Prim (PNum 3)) value in
  exists report issues,
    result (prototype_validate P self value rules false) = Normal report
    /\ Report.isValid report = Some false
    /\ Report.issues report = Some issues
    /\ In issue issues.
Proof.
  intros P self value pre post rules issue.
  destruct (failed_rule_is_reported P self value pre post "greater"
              (Literal (Prim (PNum 3))) greater
              (fun accept value => Prim (PBool (js_gt (typeof_str value) accept)))
              false [Issue.mk "equal" (Prim (PNum 1)) value] value)
    as (issues1 & output & report & _ & Hres & Hvalid & _ & _ & Hissue).
  - repeat constructor.
  - vm_compute; reflexivity.
  - reflexivity.
  - vm_compute; reflexivity.
  - reflexivity.
  - destruct Hissue as (issues & Hrep & Hin & _); [reflexivity |].
    exists report, issues. repeat split; assumption.
Defined.

(** C4 as the specification words it fails for a validator with a
    reporter: the report carries what [reporter.convert] returns, not the
    issues of the field.  With a reporter that returns an empty list,
    validating [5] against [{equal: 1}] gives a report with [isValid ===
    false] and no issue at all. *)
Lemma reporter_drops_issue_counterexample :
  let silent := mk_reporter (fun _ _ => []) in
  let self :=
    new_Validator (Some (Options.mk false false false None (ReporterObject silent))) in
  let rules := [("equal", Literal (Prim (PNum 1)))] in
  let value := Prim (PNum 5) in
  getRule prototype_rules self "equal" = Normal (RObject equal)
  /\ (forall g, Rules.validate equal = Some g ->
        g (Prim (PNum 1)) value = Prim (PBool false))
  /\ exists report,
       result (prototype_validate prototype_rules self value rules false)
       = Normal report
       /\ Report.isValid report = Some false
       /\ Report.issues report = Some []
       /\ ~ (exists issues issue,
               Report.issues report = Some issues
               /\ In issue issues /\ Issue.rule issue = "equal").
Proof.
  intros silent self rules value.
  split; [vm_compute; reflexivity |].
  split; [intros g [= <-]; vm_compute; reflexivity |].
  eexists. split; [vm_compute; reflexivity |].
  split; [reflexivity |]. split; [reflexivity |].
  intros (issues & issue & [= <-] & Hin & _). inversion Hin.
Qed.

(** ** Default rules *)

(** No type name is a numeral: the left operand of the ordering rules,
    [typeof value], converts to NaN. *)
Lemma typeof_is_not_a_number (value : val) :
  to_number (to_primitive (typeof_str value)) = NaN.
Proof. destruct value as [[| |b|n|s]|id [|] conv]; reflexivity. Qed.

Lemma greater_never_holds_for_numbers (value : val) (n : Z) :
  js_gt (typeof_str value) (Prim (PNum n)) = false.
Proof. destruct value as [[| |b|m|s]|id [|] conv]; reflexivity. Qed.

(** C1.  What the code does at the inputs of the end-to-end example: the
    [greater] rule compares [typeof value], not [value], with the accepted
    number, so its predicate is [false] for every value and every accepted
    number; [Validator.validate(5, {greater: 3})] returns a report with
    [isValid === false] and one issue for [greater], exactly as
    [Validator.validate(2, {greater: 3})] does. *)
Theorem greater_rule_end_to_end :
  let rules := [("greater", Literal (Prim (PNum 3)))] in
  let run value := Validator.validate prototype_rules Validator.options value
                     rules CustomUndefined false in
  let report value :=
    Report.mk (Some false) (Some false)
      (Some [Issue.mk "greater" (Prim (PNum 3)) value]) (Some rules) (Some value) in
  result (run (Prim (PNum 5))) = Normal (report (Prim (PNum 5)))
  /\ result (run (Prim (PNum 2))) = Normal (report (Prim (PNum 2)))
  /\ (forall g, Rules.validate greater = Some g ->
        forall (value : val) (n : Z), g (Prim (PNum n)) value = Prim (PBool false)).
Proof.
  split; [vm_compute; reflexivity |].
  split; [vm_compute; reflexivity |].
  intros g Hg value n. injection Hg as <-.
  rewrite greater_never_holds_for_numbers. reflexivity.
Qed.

(** C7.  The [defaults] rule, as registered, is a filter that returns the
    accepted parameter [X] when the value is [undefined] and returns every
    other value as it is. *)
Theorem defaults_filter (X value : val) :
  getRule prototype_rules (new_Validator None) "defaults" = Normal (RObject defaults)
  /\ exists f,
       Rules.filter defaults = Some f
       /\ f X undefined = X
       /\ (value <> undefined -> f X value = value).
Proof.
  split; [vm_compute; reflexivity |].
  eexists. split; [reflexivity |]. split; [reflexivity |].
  intros Hdef. destruct value as [[| |b|n|s]|id [|] conv]; try reflexivity.
  exfalso. apply Hdef. reflexivity.
Qed.

Lemma defaults_filter_witness :
  Prim (PNum 0) <> undefined
  /\ exists f,
       Rules.filter defaults = Some f
       /\ f (Prim (PStr "fallback")) undefined = Prim (PStr "fallback")
       /\ f (Prim (PStr "fallback")) (Prim (PNum 0)) = Prim (PNum 0).
Proof.
  assert (Hne : Prim (PNum 0) <> undefined) by discriminate.
  split; [exact Hne |].
  destruct (defaults_filter (Prim (PStr "fallback")) (Prim (PNum 0)))
    as (_ & f & Hf & Hundef & Hdef).
  exists f. split; [exact Hf |]. split; [exact Hundef |]. exact (Hdef Hne).
Defined.

(** Through the field of the specification, the value of the report is then
    the default. *)
Lemma defaults_sets_field_value (X : val) :
  result (Validator.validate prototype_rules Validator.options undefined
            [("defaults", Literal X)] CustomUndefined false)
  = Normal (Report.mk (Some true) (Some false) (Some [])
              (Some [("defaults", Literal X)]) (Some X)).
Proof. vm_compute; reflexivity. Qed.

(** ** The constructor *)

Lemma new_Validator_rules (opts : Options.t) (name : string) :
  rules (new_Validator (Some opts)) !! name
  = DataProp <$> (default ∅ (Options.rules opts) !! name).
Proof.
  unfold new_Validator, extend_rules. simpl.
  destruct (Options.rules opts) as [R|]; simpl.
  - rewrite lookup_union, lookup_fmap, lookup_empty.
    destruct (R !! name); reflexivity.
  - rewrite !lookup_empty. reflexivity.
Qed.

(** C8.  Let [R] be the [rules] of the options (empty when there is none).
    The validator built from the options resolves every name that the
    prototype-level table [P] holds and every name of [R]; a name of [R]
    resolves to [R]'s entry, whatever [P] holds for it; and every name that
    [R] does not have is looked up in [P] as before the construction. *)
Theorem constructed_rules (P : gmap string prop) (opts : Options.t) (name : string) :
  let R := default ∅ (Options.rules opts) in
  let self := new_Validator (Some opts) in
  (has P name = true -> hasRule P self name = true)
  /\ (forall d, R !! name = Some d ->
        hasRule P self name = true /\ getRule P self name = Normal d)
  /\ (R !! name = None -> rules_of P self !! name = P !! name).
Proof.
  intros R self.
  pose proof (new_Validator_rules opts name) as Hown. fold self R in Hown.
  split; [| split].
  - unfold hasRule, has, rules_of. rewrite lookup_union, Hown.
    destruct (R !! name), (P !! name); intros H;
      first [reflexivity | discriminate].
  - intros d Hd. rewrite Hd in Hown. simpl in Hown.
    assert (Hl : rules_of P self !! name = Some (DataProp d)).
    { unfold rules_of. apply lookup_union_Some_l. exact Hown. }
    assert (Hhas : hasRule P self name = true).
    { unfold hasRule, has. rewrite Hl. reflexivity. }
    split; [exact Hhas |].
    rewrite getRule_present by exact Hhas. apply get_data. exact Hl.
  - intros Hnone. rewrite Hnone in Hown. simpl in Hown.
    apply rules_of_inherited. exact Hown.
Qed.

Lemma constructed_rules_witness :
  let R : gmap string rule_value := {[ "greater" := RObject equal ]} in
  let self := new_Validator (Some (Options.mk false false false (Some R) ReporterNone)) in
  (has prototype_rules "less" = true /\ hasRule prototype_rules self "less" = true)
  /\ (R !! "greater" = Some (RObject equal)
      /\ hasRule prototype_rules self "greater" = true
      /\ getRule prototype_rules self "greater" = Normal (RObject equal))
  /\ (R !! "less" = None
      /\ rules_of prototype_rules self !! "less" = prototype_rules !! "less").
Proof.
  intros R self.
  pose (opts := Options.mk false false false (Some R) ReporterNone).
  destruct (constructed_rules prototype_rules opts "less") as (Hless & _ & Hkeep).
  destruct (constructed_rules prototype_rules opts "greater") as (_ & Hover & _).
  assert (H1 : has prototype_rules "less" = true) by (vm_compute; reflexivity).
  assert (H2 : R !! "greater" = Some (RObject equal)) by (vm_compute; reflexivity).
  assert (H3 : R !! "less" = None) by (vm_compute; reflexivity).
  split; [split; [exact H1 | exact (Hless H1)] |].
  split; [split; [exact H2 | exact (Hover _ H2)] |].
  split; [exact H3 | exact (Hkeep H3)].
Defined.

(** ** [BlocksRepository.save] *)

Section Save.
Import Blocks.

Lemma write_other (h : gmap nat (gmap string value)) (s l : nat) name v :
  l <> s -> write h s name v !! l = h !! l.
Proof. intros Hne. unfold write. apply lookup_insert_ne. congruence. Qed.

Lemma convert_field_other (h : gmap nat (gmap string value)) (s l : nat) block name :
  l <> s -> (convert_field h s block name).1 !! l = h !! l.
Proof.
  intros Hne. unfold convert_field.
  destruct (read h block name) as [v|e]; [| reflexivity].
  destruct (Buffer_from_hex v) as [b|e]; [| reflexivity].
  apply write_other. exact Hne.
Qed.

(** Whatever [save] does to the store, it does it at the location of
    [saveBlock]. *)
Lemma save_other (h : gmap nat (gmap string value)) (block : value) (l : nat) :
  l <> fresh (dom h) -> (save h block).1 !! l = h !! l.
Proof.
  intros Hne. unfold save.
  set (s := fresh (dom h)) in *.
  set (h0 := <[s := own_properties h block]> h).
  assert (H0 : h0 !! l = h !! l) by (apply lookup_insert_ne; congruence).
  pose proof (convert_field_other h0 s l block "payloadHash" Hne) as H1.
  destruct (convert_field h0 s block "payloadHash") as [h1 [[]|e]];
    simpl in *; [| congruence].
  pose proof (convert_field_other h1 s l block "generatorPublicKey" Hne) as H2.
  destruct (convert_field h1 s block "generatorPublicKey") as [h2 [[]|e]];
    simpl in *; [| congruence].
  pose proof (convert_field_other h2 s l block "blockSignature" Hne) as H3.
  destruct (convert_field h2 s block "blockSignature") as [h3 [[]|e]];
    simpl in *; [| congruence].
  destruct (read h3 block "reward") as [r|e]; simpl; [| congruence].
  rewrite write_other by exact Hne. congruence.
Qed.

Lemma convert_field_copy (h : gmap nat (gmap string value)) (s l : nat)
  (o c : gmap string value) (name str : string) :
  l <> s -> h !! l = Some o -> o !! name = Some (Str str) ->
  convert_field (<[s := c]> h) s (Obj l) name
  = (<[s := <[name := Buf (hex_decode str)]> c]> h, Normal tt).
Proof.
  intros Hne Hl Ho. unfold convert_field, read.
  rewrite lookup_insert_ne by congruence. rewrite Hl, Ho. simpl.
  unfold write. rewrite lookup_insert_eq. simpl.
  rewrite insert_insert_eq. reflexivity.
Qed.

(** C10.  [save(block)] leaves every object of the store as it was, the
    block among them, whether it returns or throws.  For a block whose
    [payloadHash], [generatorPublicKey] and [blockSignature] are strings,
    the call returns, and what it built is one new object: the copy of the
    block with the three fields decoded to buffers and [reward] set to the
    block's reward or, that being falsy or missing, to 0. *)
Theorem save_keeps_block (h : gmap nat (gmap string value)) (block : value)
  (l : nat) (o : gmap string value) :
  h !! l = Some o ->
  (save h block).1 !! l = Some o
  /\ (forall ph gk bs,
        block = Obj l ->
        o !! "payloadHash" = Some (Str ph) ->
        o !! "generatorPublicKey" = Some (Str gk) ->
        o !! "blockSignature" = Some (Str bs) ->
        let saveBlock := fresh (dom h) in
        let reward := default Undefined (o !! "reward") in
        let copy :=
          <["reward" := if truthy reward then reward else Num 0]>
            (<["blockSignature" := Buf (hex_decode bs)]>
               (<["generatorPublicKey" := Buf (hex_decode gk)]>
                  (<["payloadHash" := Buf (hex_decode ph)]> o))) in
        h !! saveBlock = None
        /\ save h block
           = (<[saveBlock := copy]> h,
              Normal (saveBlock, insert_values (<[saveBlock := copy]> h) saveBlock))).
Proof.
  intros Hl.
  assert (Hfresh : h !! fresh (dom h) = None).
  { apply not_elem_of_dom. apply is_fresh. }
  assert (Hne : l <> fresh (dom h)).
  { intros Heq. rewrite Heq, Hfresh in Hl. discriminate. }
  split.
  - rewrite save_other by exact Hne. exact Hl.
  - intros ph gk bs -> Hph Hgk Hbs saveBlock reward copy.
    split; [exact Hfresh |].
    unfold save. fold saveBlock. simpl. rewrite Hl. simpl.
    rewrite (convert_field_copy h saveBlock l o o _ ph Hne Hl Hph).
    rewrite (convert_field_copy h saveBlock l o _ _ gk Hne Hl Hgk).
    rewrite (convert_field_copy h saveBlock l o _ _ bs Hne Hl Hbs).
    unfold read.
    rewrite lookup_insert_ne by (intros E; apply Hne; symmetry; exact E).
    rewrite Hl.
    fold reward. unfold write. rewrite lookup_insert_eq. simpl.
    rewrite insert_insert_eq. reflexivity.
Qed.

Lemma save_keeps_block_witness :
  let block : gmap string value :=
    {[ "id" := Str "7"; "payloadHash" := Str "0aff";
       "generatorPublicKey" := Str "c0"; "blockSignature" := Str "1234";
       "transactions" := Obj 1 ]} in
  let h : gmap nat (gmap string value) :=
    {[ 0%nat := block; 1%nat := {[ "length" := Num 0 ]} ]} in
  h !! 0%nat = Some block
  /\ (save h (Obj 0)).1 !! 0%nat = Some block
  /\ (save h (Obj 0)).1 !! 2%nat
     = Some (<["reward" := Num 0]>
               (<["blockSignature" := Buf [18; 52]]>
                  (<["generatorPublicKey" := Buf [192]]>
                     (<["payloadHash" := Buf [10; 255]]> block)))).
Proof.
  intros block h.
  assert (Hl : h !! 0%nat = Some block) by (vm_compute; reflexivity).
  destruct (save_keeps_block h (Obj 0) 0%nat block Hl) as [Hkeep Hcopy].
  split; [exact Hl |]. split; [exact Hkeep |].
  assert (Hph : block !! "payloadHash" = Some (Str "0aff"))
    by (vm_compute; reflexivity).
  assert (Hgk : block !! "generatorPublicKey" = Some (Str "c0"))
    by (vm_compute; reflexivity).
  assert (Hbs : block !! "blockSignature" = Some (Str "1234"))
    by (vm_compute; reflexivity).
  destruct (Hcopy "0aff" "c0" "1234" eq_refl Hph Hgk Hbs) as [_ Heq].
  rewrite Heq. simpl.
  replace (fresh (dom h)) with 2%nat by (vm_compute; reflexivity).
  rewrite lookup_insert_eq. reflexivity.
Defined.

End Save.

(* ===================================================================== *)
(** * Further properties of the code                                      *)
(* ===================================================================== *)

(** ** The error classes *)

(** X1.  Every error is an [Error]; it is a [LiskError] exactly when its
    class is one the module exports; and it is an instance of one of the
    four classes that extend [LiskError] exactly when that is its own
    class, so no two of them are confused by [instanceof]. *)
Theorem lisk_error_hierarchy (e : js_error) :
  instance_of e ClsError = true
  /\ (instance_of e LiskError = true <->
      cls e <> ClsError /\ cls e <> ClsTypeError /\ cls e <> ClsRangeError)
  /\ (forall c, parent c = Some LiskError ->
        (instance_of e c = true <-> cls e = c)).
Proof.
  destruct e as [c0 msg]. unfold instance_of. simpl.
  split; [destruct c0; reflexivity |].
  split.
  - destruct c0; simpl; split; intros H;
      try discriminate; try reflexivity;
      try (repeat split; discriminate);
      destruct H as (H1 & H2 & H3); congruence.
  - intros c Hc.
    destruct c; simpl in Hc; try discriminate;
      destruct c0; simpl; split; intros H;
      try discriminate; reflexivity.
Qed.

(** ** The constructor *)

(** X2.  Whatever the options are, a constructed validator has
    [execRules] set: the prototype's [true] wins in
    [this.execRules || options.execRules], so the option cannot switch it
    off; [forceAsync] and [skipMissed] are the options' own. *)
Theorem constructor_flags (options : option Options.t) :
  let self := new_Validator options in
  let given := default Options.empty options in
  execRules self = true
  /\ forceAsync self = Options.forceAsync given
  /\ skipMissed self = Options.skipMissed given
  /\ hasError self = false
  /\ (Options.rules given = None -> forall P, rules_of P self = P).
Proof.
  intros self given. repeat split.
  intros Hnone P. unfold rules_of, self, new_Validator. simpl.
  fold given. rewrite Hnone. simpl. apply (left_id ∅ (∪)).
Qed.

Lemma constructor_flags_witness :
  let options := Some (Options.mk true true false None ReporterNone) in
  let self := new_Validator options in
  execRules self = true
  /\ forceAsync self = true
  /\ skipMissed self = true
  /\ hasError self = false
  /\ rules_of prototype_rules self = prototype_rules.
Proof.
  intros options self.
  destruct (constructor_flags options) as (H1 & H2 & H3 & H4 & H5).
  split; [exact H1 |]. split; [exact H2 |]. split; [exact H3 |].
  split; [exact H4 |]. apply H5. reflexivity.
Defined.

(** ** The registry *)

Lemma get_fuel_throw n (T : gmap string prop) x e :
  get_fuel n T x = Throw e ->
  e = new_RangeError "Maximum call stack size exceeded".
Proof.
  revert x; induction n as [|n IH]; intros x; simpl.
  - intros [= <-]. reflexivity.
  - destruct (T !! x) as [[d|o c]|]; try discriminate. apply IH.
Qed.

(** X3.  [getRule] throws its own error, "Rule ... is not defined",
    exactly for the names that [hasRule] rejects. *)
Theorem getRule_not_defined (P : gmap string prop) (self : Validator.t)
  (name : string) :
  getRule P self name
  = Throw (new_Error ("Rule " ++ dquote ++ name ++ dquote ++ " is not defined"))
  <-> hasRule P self name = false.
Proof.
  unfold getRule, hasRule. split.
  - destruct (has (rules_of P self) name); [| reflexivity].
    simpl. intros H. apply get_fuel_throw in H. discriminate.
  - intros ->. reflexivity.
Qed.

Lemma assign_has P k d name :
  has P name = true -> has (assign P k d).1 name = true.
Proof.
  unfold has, assign. intros H.
  destruct (P !! k) as [[d0|o0 c0]|];
    [| | destruct (String.eqb k "__proto__")]; simpl; try exact H;
    (destruct (decide (k = name)) as [->|Hne];
     [rewrite lookup_insert_eq; reflexivity
     | rewrite lookup_insert_ne by exact Hne; exact H]).
Qed.

Lemma define_getter_has P k origin name :
  has P name = true -> has (define_getter P k origin).1 name = true.
Proof.
  unfold has, define_getter. intros H.
  destruct (P !! k) as [[d0|o0 [|]]|]; simpl; try exact H;
    (destruct (decide (k = name)) as [->|Hne];
     [rewrite lookup_insert_eq; reflexivity
     | rewrite lookup_insert_ne by exact Hne; exact H]).
Qed.

Lemma addAliases_has l origin P name :
  has P name = true -> has (addAliases l origin P).1 name = true.
Proof.
  revert P; induction l as [|a l IH]; intros P H; simpl; [exact H |].
  pose proof (define_getter_has P a origin name H) as H1. unfold addAlias.
  destruct (define_getter P a origin) as [P1 [u|e]]; simpl in *; auto.
Qed.

Lemma addRule_has k d P name :
  has P name = true -> has (addRule k d P).1 name = true.
Proof.
  intros H. unfold addRule.
  destruct (negb (jstype_eqb (typeof_rule_value d) TObject)); [exact H |].
  pose proof (assign_has P k d name H) as H1.
  destruct (assign P k d) as [P1 [u|e]]; simpl in *; [| exact H1].
  destruct d as [p|desc]; simpl; [exact H1 |].
  destruct (aliases desc); [apply addAliases_has |]; exact H1.
Qed.

(** X4.  The registry only grows: a name that is an entry of the shared
    table or of the validator's own rules is still an entry, and so still
    accepted by [hasRule], after any further calls of [addRule] and
    [addAlias], whether they return or throw.  (This is about entries: a
    name that [hasRule] accepts only because every object inherits it,
    such as [toString], is none.) *)
Theorem registry_only_grows (calls : list registry_call)
  (P : gmap string prop) (self : Validator.t) (name : string) :
  is_Some (rules_of P self !! name) ->
  is_Some (rules_of (run_calls calls P) self !! name)
  /\ hasRule (run_calls calls P) self name = true.
Proof.
  intros Hentry.
  assert (Hhas : hasRule (run_calls calls P) self name = true).
  { assert (H0 : hasRule P self name = true).
    { unfold hasRule, has. destruct Hentry as [x ->]. reflexivity. }
    clear Hentry. revert H0.
    unfold hasRule, has, rules_of. rewrite !lookup_union.
    destruct (rules self !! name) as [p|];
      [intros _; destruct (_ !! name); reflexivity |].
    rewrite !(left_id None _).
    revert P; induction calls as [|c calls IH]; intros P H; simpl; [exact H |].
    apply IH.
    destruct c as [k d|k origin]; simpl.
    - apply (addRule_has k d P name). exact H.
    - apply (define_getter_has P k origin name). exact H. }
  split; [| exact Hhas].
  unfold hasRule, has in Hhas.
  destruct (rules_of (run_calls calls P) self !! name) as [x|];
    [eexists; reflexivity | discriminate].
Qed.

Lemma registry_only_grows_witness :
  let calls := [CallAddRule "gt" (RPrim PNull); CallAddAlias "less" "equal";
                CallAddRule "__proto__" (RPrim PNull);
                CallAddRule "less" (RPrim (PNum 1))] in
  is_Some (rules_of prototype_rules (new_Validator None) !! "less")
  /\ hasRule (run_calls calls prototype_rules) (new_Validator None) "less" = true.
Proof.
  intros calls.
  assert (H : is_Some (rules_of prototype_rules (new_Validator None) !! "less"))
    by (eexists; vm_compute; reflexivity).
  split; [exact H |].
  exact (proj2 (registry_only_grows calls prototype_rules (new_Validator None)
                  "less" H)).
Defined.

Lemma addRule_entries (name : string) (desc : RuleDescriptor) (P : gmap string prop) :
  let l := default [] (aliases desc) in
  let P' := (addRule name (RObject desc) P).1 in
  is_getter P name = false ->
  name <> "__proto__" ->
  NoDup l -> name ∉ l ->
  (forall a, a ∈ l -> is_frozen P a = false) ->
  (addRule name (RObject desc) P).2 = Normal tt
  /\ P' !! name = Some (DataProp (RObject desc))
  /\ (forall a, a ∈ l -> exists c, P' !! a = Some (GetterProp name c)).
Proof.
  intros l P' Hget Hproto Hnd Hname Hfree. subst P'. unfold addRule. simpl.
  rewrite (assign_stores P name _ Hget Hproto).
  set (P1 := <[name := DataProp (RObject desc)]> P).
  assert (Hoth : forall k, name <> k -> P1 !! k = P !! k).
  { intros k Hk. apply lookup_insert_ne. exact Hk. }
  assert (Hat : P1 !! name = Some (DataProp (RObject desc)))
    by apply lookup_insert_eq.
  subst l. destruct (aliases desc) as [l|]; simpl in *.
  - destruct (addAliases_ok l name P1 Hnd) as (Hok & Hentries).
    { intros a Ha. unfold is_frozen. rewrite Hoth.
      - apply Hfree. exact Ha.
      - intros ->. contradiction. }
    split; [exact Hok |]. split; [| exact Hentries].
    rewrite addAliases_other by exact Hname. exact Hat.
  - split; [reflexivity |]. split; [exact Hat |].
    intros a Ha. inversion Ha.
Qed.

(** X5.  Registering and looking up compose: after [addRule(name,
    descriptor)] with a name that is neither a forwarding entry nor
    [__proto__] and aliases that are distinct, differ from the name and
    are not fixed forwarding entries, every validator that does not shadow
    these names, also one constructed before the call, finds the
    descriptor under the name and under each alias. *)
Theorem registered_rule_is_found (P : gmap string prop) (name : string)
  (desc : RuleDescriptor) (self : Validator.t) :
  let l := default [] (aliases desc) in
  let P' := (addRule name (RObject desc) P).1 in
  is_getter P name = false ->
  name <> "__proto__" ->
  NoDup l -> name ∉ l ->
  (forall a, a ∈ l -> is_frozen P a = false) ->
  rules self !! name = None ->
  (forall a, a ∈ l -> rules self !! a = None) ->
  hasRule P' self name = true
  /\ getRule P' self name = Normal (RObject desc)
  /\ (forall a, a ∈ l ->
        hasRule P' self a = true /\ getRule P' self a = Normal (RObject desc)).
Proof.
  intros l P' Hget Hproto Hnd Hname Hfree Hown Hown_l.
  destruct (addRule_entries name desc P Hget Hproto Hnd Hname Hfree)
    as (_ & Hentry & Haliases).
  fold P' in Hentry, Haliases.
  assert (Hl : rules_of P' self !! name = Some (DataProp (RObject desc))).
  { rewrite rules_of_inherited by exact Hown. exact Hentry. }
  assert (Hhas : hasRule P' self name = true).
  { unfold hasRule, has. rewrite Hl. reflexivity. }
  split; [exact Hhas |]. split.
  - rewrite getRule_present by exact Hhas. apply get_data. exact Hl.
  - intros a Ha. destruct (Haliases a Ha) as [c Hc].
    assert (Hla : rules_of P' self !! a = Some (GetterProp name c)).
    { rewrite rules_of_inherited by (apply Hown_l; exact Ha). exact Hc. }
    assert (Hhas_a : hasRule P' self a = true).
    { unfold hasRule, has. rewrite Hla. reflexivity. }
    split; [exact Hhas_a |].
    rewrite getRule_present by exact Hhas_a.
    rewrite (get_getter _ a name c Hla). apply get_data. exact Hl.
Qed.

Lemma registered_rule_is_found_witness :
  let desc := mk_rule (Some "odd") (Some ["uneven"; "o"]) None None in
  let self := new_Validator None in
  let P' := (addRule "odd" (RObject desc) prototype_rules).1 in
  hasRule P' self "odd" = true
  /\ getRule P' self "odd" = Normal (RObject desc)
  /\ (forall a, a ∈ ["uneven"; "o"] ->
        hasRule P' self a = true /\ getRule P' self a = Normal (RObject desc)).
Proof.
  intros desc self P'.
  apply (registered_rule_is_found prototype_rules "odd" desc self).
  - vm_compute; reflexivity.
  - discriminate.
  - simpl. repeat (apply NoDup_cons; split);
      [ intros H; apply list_elem_of_singleton in H; discriminate
      | apply not_elem_of_nil | apply NoDup_nil_2 ].
  - simpl. intros H. repeat (apply elem_of_cons in H as [H|H]; [discriminate |]).
    inversion H.
  - simpl. intros a H.
    repeat (apply elem_of_cons in H as [->|H]; [vm_compute; reflexivity |]).
    inversion H.
  - vm_compute; reflexivity.
  - intros a _. vm_compute; reflexivity.
Defined.



(** X7.  An alias defined on a name the registry did not have is final:
    every later [addRule] on that name throws and every later [addAlias]
    on it throws a [TypeError], and both leave the registry exactly as it
    was. *)
Theorem fresh_alias_is_final (P : gmap string prop) (name origin : string) :
  P !! name = None ->
  let P1 := (addAlias name origin P).1 in
  (addAlias name origin P).2 = Normal tt
  /\ (forall d, exists e, addRule name d P1 = (P1, Throw e))
  /\ (forall origin',
        addAlias name origin' P1
        = (P1, Throw (new_TypeError ("Cannot redefine property: " ++ name)))).
Proof.
  intros Hnone P1.
  assert (H1 : P1 !! name = Some (GetterProp origin false)).
  { unfold P1, addAlias, define_getter. rewrite Hnone. simpl.
    apply lookup_insert_eq. }
  split; [unfold addAlias, define_getter; rewrite Hnone; reflexivity |].
  split.
  - intros d. unfold addRule.
    destruct (negb (jstype_eqb (typeof_rule_value d) TObject)); [eauto |].
    unfold assign. rewrite H1. eauto.
  - intros origin'. unfold addAlias, define_getter. rewrite H1. reflexivity.
Qed.

Lemma fresh_alias_is_final_witness :
  let P1 := (addAlias "above" "greater" prototype_rules).1 in
  prototype_rules !! "above" = None
  /\ (exists e, addRule "above" (RObject equal) P1 = (P1, Throw e))
  /\ addAlias "above" "less" P1
     = (P1, Throw (new_TypeError "Cannot redefine property: above")).
Proof.
  intros P1.
  assert (H : prototype_rules !! "above" = None) by (vm_compute; reflexivity).
  destruct (fresh_alias_is_final prototype_rules "above" "greater" H)
    as (_ & Hrule & Halias).
  split; [exact H |]. split; [apply Hrule | apply Halias].
Defined.

(** X8.  An alias of a name that is not registered and that objects do
    not inherit from [Object.prototype] either: [hasRule] accepts the
    alias, and [getRule] returns [undefined] for it without throwing,
    while for the origin itself [hasRule] is false and [getRule] throws
    "Rule ... is not defined". *)
Theorem dangling_alias (P : gmap string prop) (name origin : string)
  (self : Validator.t) :
  P !! name = None -> P !! origin = None -> name <> origin ->
  inherited origin = false ->
  rules self !! name = None -> rules self !! origin = None ->
  let P1 := (addAlias name origin P).1 in
  hasRule P1 self name = true
  /\ getRule P1 self name = Normal (RPrim PUndefined)
  /\ hasRule P1 self origin = false
  /\ getRule P1 self origin
     = Throw (new_Error ("Rule " ++ dquote ++ origin ++ dquote ++ " is not defined")).
Proof.
  intros Hn Ho Hne _ Hown Hown_o P1.
  assert (H1 : rules_of P1 self !! name = Some (GetterProp origin false)).
  { rewrite rules_of_inherited by exact Hown.
    unfold P1, addAlias, define_getter. rewrite Hn. apply lookup_insert_eq. }
  assert (H2 : rules_of P1 self !! origin = None).
  { rewrite rules_of_inherited by exact Hown_o.
    unfold P1, addAlias, define_getter. rewrite Hn. simpl.
    rewrite lookup_insert_ne by exact Hne. exact Ho. }
  assert (Hhas : hasRule P1 self name = true).
  { unfold hasRule, has. rewrite H1. reflexivity. }
  assert (Hhas_o : hasRule P1 self origin = false).
  { unfold hasRule, has. rewrite H2. reflexivity. }
  split; [exact Hhas |]. split.
  - rewrite getRule_present by exact Hhas.
    rewrite (get_getter _ name origin false H1). apply get_absent. exact H2.
  - split; [exact Hhas_o |].
    unfold getRule. unfold hasRule in Hhas_o. rewrite Hhas_o. reflexivity.
Qed.

Lemma dangling_alias_witness :
  let self := new_Validator None in
  let P1 := (addAlias "above" "bigger" prototype_rules).1 in
  hasRule P1 self "above" = true
  /\ getRule P1 self "above" = Normal (RPrim PUndefined)
  /\ hasRule P1 self "bigger" = false
  /\ getRule P1 self "bigger"
     = Throw (new_Error ("Rule " ++ dquote ++ "bigger" ++ dquote ++ " is not defined")).
Proof.
  intros self P1.
  apply (dangling_alias prototype_rules "above" "bigger" self);
    try (vm_compute; reflexivity).
  discriminate.
Defined.

Lemma addAlias_fresh (P : gmap string prop) (name origin : string) :
  P !! name = None ->
  addAlias name origin P = (<[name := GetterProp origin false]> P, Normal tt).
Proof. intros H. unfold addAlias, define_getter. rewrite H. reflexivity. Qed.

Lemma get_fuel_two_cycle (T : gmap string prop) a b ca cb :
  T !! a = Some (GetterProp b ca) -> T !! b = Some (GetterProp a cb) ->
  forall n, get_fuel n T a = overflow /\ get_fuel n T b = overflow.
Proof.
  intros Ha Hb. induction n as [|n [IHa IHb]]; simpl; [split; reflexivity |].
  rewrite Ha, Hb. split; assumption.
Qed.

(** X9.  Two aliases that forward to each other (or one that forwards to
    itself, when the two names are the same) make a name that [hasRule]
    accepts and that [getRule] cannot read: the getters call each other
    until the stack is exhausted, and [getRule] ends with a
    [RangeError]. *)
Theorem alias_cycle_overflows (P : gmap string prop) (a b : string)
  (self : Validator.t) :
  P !! a = None -> P !! b = None ->
  rules self !! a = None -> rules self !! b = None ->
  let P2 := (addAlias b a (addAlias a b P).1).1 in
  hasRule P2 self a = true
  /\ getRule P2 self a
     = Throw (new_RangeError "Maximum call stack size exceeded").
Proof.
  intros Ha Hb Hown_a Hown_b P2.
  assert (Hcycle : exists ca cb,
             rules_of P2 self !! a = Some (GetterProp b ca)
             /\ rules_of P2 self !! b = Some (GetterProp a cb)).
  { rewrite (rules_of_inherited P2 self a Hown_a).
    rewrite (rules_of_inherited P2 self b Hown_b).
    unfold P2. rewrite (addAlias_fresh P a b Ha). simpl.
    destruct (decide (a = b)) as [<-|Hne].
    - unfold addAlias, define_getter. rewrite lookup_insert_eq. simpl.
      rewrite lookup_insert_eq. eauto.
    - rewrite addAlias_fresh
        by (rewrite lookup_insert_ne by exact Hne; exact Hb).
      simpl. rewrite lookup_insert_eq.
      rewrite lookup_insert_ne by congruence. rewrite lookup_insert_eq. eauto. }
  destruct Hcycle as (ca & cb & H1 & H2).
  assert (Hhas : hasRule P2 self a = true).
  { unfold hasRule, has. rewrite H1. reflexivity. }
  split; [exact Hhas |].
  rewrite getRule_present by exact Hhas. unfold get.
  apply (get_fuel_two_cycle _ a b ca cb H1 H2).
Qed.

Lemma alias_cycle_overflows_witness :
  let self := new_Validator None in
  let P2 := (addAlias "pong" "ping" (addAlias "ping" "pong" prototype_rules).1).1 in
  hasRule P2 self "ping" = true
  /\ getRule P2 self "ping"
     = Throw (new_RangeError "Maximum call stack size exceeded").
Proof.
  intros self P2.
  apply (alias_cycle_overflows prototype_rules "ping" "pong" self);
    vm_compute; reflexivity.
Defined.

(** ** The default rules and the field properties *)

(** X10.  The predicates of the rules [type] and [notEqual] return the
    string ['boolean'] for every accepted parameter and every value, which
    is truthy: these two rules hold whatever they are given. *)
Theorem type_and_notEqual_always_hold :
  exists g_type g_notEqual,
    Rules.validate type = Some g_type
    /\ Rules.validate notEqual = Some g_notEqual
    /\ forall accept value : val,
         g_type accept value = Prim (PStr "boolean")
         /\ g_notEqual accept value = Prim (PStr "boolean")
         /\ to_boolean (g_type accept value) = true
         /\ to_boolean (g_notEqual accept value) = true.
Proof.
  do 2 eexists. split; [reflexivity |]. split; [reflexivity |].
  intros accept value. repeat split.
Qed.

(** X11.  The predicates of [greater], [greaterOrEqual], [less] and
    [lessOrEqual] see the value only through [typeof]: two values of the
    same type get the same answer.  With a number as accepted parameter
    the answer is [false] for every value. *)
Theorem ordering_rules_ignore_the_value :
  exists g_gt g_ge g_lt g_le,
    Rules.validate greater = Some g_gt
    /\ Rules.validate greaterOrEqual = Some g_ge
    /\ Rules.validate less = Some g_lt
    /\ Rules.validate lessOrEqual = Some g_le
    /\ (forall accept v w : val,
          typeof v = typeof w ->
          g_gt accept v = g_gt accept w /\ g_ge accept v = g_ge accept w
          /\ g_lt accept v = g_lt accept w /\ g_le accept v = g_le accept w)
    /\ (forall (n : Z) (value : val),
          g_gt (Prim (PNum n)) value = Prim (PBool false)
          /\ g_ge (Prim (PNum n)) value = Prim (PBool false)
          /\ g_lt (Prim (PNum n)) value = Prim (PBool false)
          /\ g_le (Prim (PNum n)) value = Prim (PBool false)).
Proof.
  do 4 eexists. do 4 (split; [reflexivity |]). split.
  - intros accept v w Hty. unfold typeof_str. rewrite Hty. repeat split.
  - intros n value.
    destruct value as [[| |b|m|s]|id [|] conv]; repeat split.
Qed.

(** X12.  The [defaults] filter yields [undefined] only when the value and
    the default are both [undefined], and applying it twice with the same
    default is applying it once. *)
Theorem defaults_filter_result :
  exists f,
    Rules.filter defaults = Some f
    /\ forall X value : val,
         (f X value = undefined <-> X = undefined /\ value = undefined)
         /\ f X (f X value) = f X value.
Proof.
  eexists. split; [reflexivity |].
  intros X value. split.
  - destruct value as [[| |b|n|s]|id [|] conv]; simpl; split;
      try (intros [H1 H2]; first [discriminate | exact H1]);
      try discriminate;
      intros H; split; first [exact H | reflexivity].
  - destruct value as [[| |b|n|s]|id [|] conv]; simpl; try reflexivity.
    destruct X as [[| |b|n|s]|id [|] conv]; reflexivity.
Qed.

Ltac split_cases H :=
  repeat match goal with
         | H : _ \/ _ |- _ => destruct H as [H|H]
         | H : exists _, _ |- _ => destruct H as [? H]
         end.

(** X13.  The field property [isEmpty] holds exactly for [undefined],
    [null] and the empty string ([0] and [false] are not empty),
    [isUndefined] exactly for [undefined], and [isObject] exactly for
    references that are not callable: [null] is no object although its
    [typeof] is ['object'], and nothing is both an object and empty. *)
Theorem field_properties (value : val) :
  (FieldProperty.isEmpty value = true <->
     value = undefined \/ value = null \/ value = Prim (PStr EmptyString))
  /\ (FieldProperty.isUndefined value = true <-> value = undefined)
  /\ (FieldProperty.isObject value = true <->
        exists id conv, value = Ref id false conv)
  /\ (FieldProperty.isObject value = true -> FieldProperty.isEmpty value = false).
Proof.
  unfold FieldProperty.isEmpty, FieldProperty.isUndefined, FieldProperty.isObject.
  destruct value as [[| |b|n|s]|id [|] conv]; simpl;
    (split; [| split; [| split]]);
    try (split; intros H; split_cases H;
         try discriminate; try reflexivity; auto; eauto; fail);
    try (intros H; first [discriminate | reflexivity]).
  split; intros H.
  - apply String.eqb_eq in H. subst s. auto.
  - split_cases H; try discriminate. injection H as ->. reflexivity.
Qed.

(** ** Delivery of the result *)

(** X14.  With a callback, a [validate] call runs the [onEnd] hook and
    then the callback exactly once, counting what happens before the call
    returns, in its timer and in the later call of [finish]; the callback
    receives the error, the report and the output of the field.  Without
    a callback neither the hook nor anything else is run. *)
Theorem callback_runs_once (self : Validator.t) (run : FieldRun) (rules : RuleSet) :
  match run with
  | Completes err issues output =>
      Delivery.all_actions (validate_field self run rules true)
      = [OnEnd; Callback err (report_of self rules false issues output) output]
  | Suspends err issues output =>
      Delivery.all_actions (validate_field self run rules true)
      = [OnEnd; Callback err (report_of self rules true issues output) output]
  end
  /\ Delivery.all_actions (validate_field self run rules false) = [].
Proof.
  destruct run as [err issues output|err issues output];
    unfold Delivery.all_actions, validate_field, finish, report_of; simpl.
  - split.
    + destruct (forceAsync self); reflexivity.
    + destruct err; reflexivity.
  - split; [reflexivity |]. destruct err; reflexivity.
Qed.

(** ** The query builders *)

(** X15.  [Queries.list] builds the SELECT, then a WHERE clause with the
    conditions joined by AND when [where] is a non-empty array, then an
    ORDER BY clause when [sortField] is a non-empty string (a missing
    [sortMethod] leaves its place empty), then LIMIT and OFFSET; a part
    that is left out leaves no gap. *)
Theorem list_query_shape (params : Queries.ListParams) :
  Queries.list params =
  ("SELECT * FROM blocks_list" ++
   match Queries.where_ params with
   | Some (c :: cs) => " WHERE " ++ Queries.join " AND " (c :: cs)
   | _ => EmptyString
   end ++
   match Queries.sortField params with
   | Some (String a s) =>
       " ORDER BY " ++ String a s ++ " " ++
       default EmptyString (Queries.sortMethod params)
   | _ => EmptyString
   end ++
   " LIMIT ${limit} OFFSET ${offset}")%string.
Proof.
  destruct params as [w sf sm]. unfold Queries.list.
  destruct w as [[|c cs]|]; destruct sf as [[|a s]|]; reflexivity.
Qed.

(** X16.  The query of [Queries.loadBlocksData] has exactly one WHERE
    keyword, names the placeholder [${id}] exactly when [id] is given and
    [${height}] exactly when [lastId] is given, and bounds the height by
    [${limit}] unless [id] alone is given. *)
Theorem loadBlocksData_placeholders (params : Queries.LoadParams) :
  let q := Queries.loadBlocksData params in
  let has_id := Queries.truthy (Queries.id params) in
  let has_lastId := Queries.truthy (Queries.lastId params) in
  Queries.occurrences "WHERE" q = 1%nat
  /\ Queries.occurrences "${id}" q = (if has_id then 1 else 0)%nat
  /\ Queries.occurrences "${height}" q = (if has_lastId then 1 else 0)%nat
  /\ Queries.occurrences "${limit}" q
     = (if has_id && negb has_lastId then 0 else 1)%nat.
Proof.
  destruct params as [[[|a s]|] [[|b t]|]]; vm_compute; repeat split.
Qed.

(** ** The repository methods and the store *)

Section Repository.
Import Blocks.

(** X17.  Unlike [save], [getCommonBlock(params)] changes its argument:
    it stores [comparePreviousBlock] in the caller's object, the empty
    string when [previousBlock] is missing or falsy and the formatted
    condition otherwise, hands that same object to the query, and changes
    no other property of it and no other object. *)
Theorem getCommonBlock_writes_params
  (format : string -> gmap string value -> string)
  (h : gmap nat (gmap string value)) (params : nat) (o : gmap string value) :
  h !! params = Some o ->
  let r := BlocksRepository.getCommonBlock format h params in
  exists o',
    r.2 = params
    /\ r.1 !! params = Some o'
    /\ (forall l, l <> params -> r.1 !! l = h !! l)
    /\ (forall k, k <> "comparePreviousBlock" -> o' !! k = o !! k)
    /\ (truthy (default Undefined (o !! "previousBlock")) = false ->
        o' !! "comparePreviousBlock" = Some (Str EmptyString))
    /\ (truthy (default Undefined (o !! "previousBlock")) = true ->
        exists text, o' !! "comparePreviousBlock" = Some (Str text)
                     /\ text = format ("AND " ++ Queries.quoted "previousBlock"
                                       ++ " = ${previousBlock}") o).
Proof.
  intros Hp r. subst r. unfold BlocksRepository.getCommonBlock, write.
  rewrite Hp. simpl.
  eexists. split; [reflexivity |].
  split; [apply lookup_insert_eq |].
  split; [intros l Hne; apply lookup_insert_ne; congruence |].
  split; [intros k Hne; apply lookup_insert_ne; congruence |].
  split; intros Ht; rewrite Ht.
  - apply lookup_insert_eq.
  - eexists. split; [apply lookup_insert_eq | reflexivity].
Qed.

Lemma getCommonBlock_writes_params_witness :
  let format := fun (q : string) (o : gmap string value) =>
                  match o !! "previousBlock" with
                  | Some (Str b) => ("AND prev = " ++ b)%string
                  | _ => q
                  end in
  let o : gmap string value := {[ "id" := Str "7"; "previousBlock" := Str "6" ]} in
  let h : gmap nat (gmap string value) := {[ 3%nat := o ]} in
  let r := BlocksRepository.getCommonBlock format h 3%nat in
  h !! 3%nat = Some o
  /\ exists o',
       r.2 = 3%nat
       /\ r.1 !! 3%nat = Some o'
       /\ o' !! "id" = Some (Str "7")
       /\ o' !! "comparePreviousBlock" = Some (Str "AND prev = 6").
Proof.
  intros format o h r.
  assert (Hp : h !! 3%nat = Some o) by (vm_compute; reflexivity).
  split; [exact Hp |].
  destruct (getCommonBlock_writes_params format h 3%nat o Hp)
    as (o' & H2 & H1 & _ & Hkeep & _ & Hset).
  exists o'. split; [exact H2 |]. split; [exact H1 |]. split.
  - rewrite Hkeep by discriminate. vm_compute; reflexivity.
  - destruct Hset as (text & Htext & ->); [vm_compute; reflexivity |].
    rewrite Htext. vm_compute; reflexivity.
Defined.

Lemma convert_field_throws (h : gmap nat (gmap string value)) (s : nat)
  (block : value) (name : string) e :
  (convert_field h s block name).2 = Throw e -> cls e = ClsTypeError.
Proof.
  unfold convert_field, read, Buffer_from_hex.
  destruct block as [| |b|n|str|bytes|l]; simpl;
    try (intros [= <-]; reflexivity);
    try (destruct (h !! l) as [o|]; [destruct (default Undefined (o !! name)) |]);
    simpl; intros [= <-]; reflexivity.
Qed.

Lemma convert_field_refused (h : gmap nat (gmap string value)) (s l : nat)
  (o : gmap string value) (name : string) :
  h !! l = Some o -> refused (default Undefined (o !! name)) = true ->
  exists e, convert_field h s (Obj l) name = (h, Throw e).
Proof.
  intros Hl Ho. unfold convert_field, read. rewrite Hl.
  destruct (default Undefined (o !! name)); try discriminate; simpl; eauto.
Qed.

(** X18.  [save] throws a [TypeError] from its [try] block, before the
    insert helper is reached, for a block that is [undefined] or [null],
    and for a block object none of whose [payloadHash],
    [generatorPublicKey] and [blockSignature] holds an object and at least
    one of which is missing or holds [undefined], [null], a boolean or a
    number. *)
Theorem save_rejects_incomplete_block (h : gmap nat (gmap string value))
  (block : value) :
  (block = Undefined \/ block = Null
   \/ exists l o,
        block = Obj l /\ h !! l = Some o
        /\ (forall name, In name hex_fields ->
              is_object (default Undefined (o !! name)) = false)
        /\ (exists name, In name hex_fields
              /\ refused (default Undefined (o !! name)) = true)) ->
  exists e, (save h block).2 = Throw e /\ cls e = ClsTypeError.
Proof.
  intros [->|[->|(l & o & -> & Hl & _ & name & Hname & Ho)]];
    [unfold save; simpl; eauto | unfold save; simpl; eauto |].
  assert (Hfresh : h !! fresh (dom h) = None)
    by (apply not_elem_of_dom, is_fresh).
  assert (Hne : l <> fresh (dom h)).
  { intros Heq. rewrite Heq, Hfresh in Hl. discriminate. }
  unfold save. set (s := fresh (dom h)) in *.
  set (h0 := <[s := own_properties h (Obj l)]> h).
  assert (H0 : h0 !! l = Some o).
  { unfold h0. rewrite lookup_insert_ne by congruence. exact Hl. }
  pose proof (convert_field_throws h0 s (Obj l) "payloadHash") as T1.
  pose proof (convert_field_other h0 s l (Obj l) "payloadHash" Hne) as F1.
  pose proof (convert_field_refused h0 s l o "payloadHash" H0) as M1.
  destruct (convert_field h0 s (Obj l) "payloadHash") as [h1 [[]|e1]];
    simpl in *; [| eauto].
  assert (H1 : h1 !! l = Some o) by congruence.
  pose proof (convert_field_throws h1 s (Obj l) "generatorPublicKey") as T2.
  pose proof (convert_field_other h1 s l (Obj l) "generatorPublicKey" Hne) as F2.
  pose proof (convert_field_refused h1 s l o "generatorPublicKey" H1) as M2.
  destruct (convert_field h1 s (Obj l) "generatorPublicKey") as [h2 [[]|e2]];
    simpl in *; [| eauto].
  assert (H2 : h2 !! l = Some o) by congruence.
  pose proof (convert_field_throws h2 s (Obj l) "blockSignature") as T3.
  pose proof (convert_field_refused h2 s l o "blockSignature" H2) as M3.
  destruct (convert_field h2 s (Obj l) "blockSignature") as [h3 [[]|e3]];
    simpl in *; [| eauto].
  exfalso.
  destruct Hname as [<-|[<-|[<-|[]]]];
    [destruct (M1 Ho) | destruct (M2 Ho) | destruct (M3 Ho)]; discriminate.
Qed.

Lemma save_rejects_incomplete_block_witness :
  let o : gmap string value :=
    {[ "payloadHash" := Str "0aff"; "blockSignature" := Str "1234" ]} in
  let h : gmap nat (gmap string value) := {[ 0%nat := o ]} in
  exists e, (save h (Obj 0)).2 = Throw e /\ cls e = ClsTypeError.
Proof.
  intros o h.
  apply (save_rejects_incomplete_block h (Obj 0)).
  right. right. exists 0%nat, o.
  split; [reflexivity |]. split; [vm_compute; reflexivity |]. split.
  - intros name [<-|[<-|[<-|[]]]]; vm_compute; reflexivity.
  - exists "generatorPublicKey".
    split; [right; left; reflexivity | vm_compute; reflexivity].
Defined.

Lemma save_of_hex_block (h : gmap nat (gmap string value)) (l : nat)
  (o : gmap string value) (ph gk bs : string) :
  h !! l = Some o ->
  o !! "payloadHash" = Some (Str ph) ->
  o !! "generatorPublicKey" = Some (Str gk) ->
  o !! "blockSignature" = Some (Str bs) ->
  let saveBlock := fresh (dom h) in
  let reward := default Undefined (o !! "reward") in
  let copy :=
    <["reward" := if truthy reward then reward else Num 0]>
      (<["blockSignature" := Buf (hex_decode bs)]>
         (<["generatorPublicKey" := Buf (hex_decode gk)]>
            (<["payloadHash" := Buf (hex_decode ph)]> o))) in
  save h (Obj l)
  = (<[saveBlock := copy]> h,
     Normal (saveBlock, map (fun c => (c, copy !! c)) dbFields)).
Proof.
  intros Hl Hph Hgk Hbs saveBlock reward copy.
  assert (Hfresh : h !! fresh (dom h) = None)
    by (apply not_elem_of_dom, is_fresh).
  assert (Hne : l <> fresh (dom h)).
  { intros Heq. rewrite Heq, Hfresh in Hl. discriminate. }
  unfold save. fold saveBlock. simpl. rewrite Hl. simpl.
  rewrite (convert_field_copy h saveBlock l o o _ ph Hne Hl Hph).
  rewrite (convert_field_copy h saveBlock l o _ _ gk Hne Hl Hgk).
  rewrite (convert_field_copy h saveBlock l o _ _ bs Hne Hl Hbs).
  unfold read.
  rewrite lookup_insert_ne by (intros E; apply Hne; symmetry; exact E).
  rewrite Hl. fold reward. unfold write, insert_values.
  rewrite lookup_insert_eq. simpl. rewrite insert_insert_eq.
  rewrite lookup_insert_eq. reflexivity.
Qed.

(** X19.  For a block whose three hex fields are strings, [save] hands one
    value per column of [dbFields] to the insert helper, in that order:
    the decoded buffers for the three fields, a [reward] that is the
    block's own when truthy and [0] otherwise (never missing), and for
    every other column exactly what the block holds, missing columns
    staying missing. *)
Theorem save_inserted_columns (h : gmap nat (gmap string value)) (l : nat)
  (o : gmap string value) (ph gk bs : string) :
  h !! l = Some o ->
  o !! "payloadHash" = Some (Str ph) ->
  o !! "generatorPublicKey" = Some (Str gk) ->
  o !! "blockSignature" = Some (Str bs) ->
  exists saveBlock cols,
    (save h (Obj l)).2 = Normal (saveBlock, cols)
    /\ map fst cols = dbFields
    /\ In ("payloadHash", Some (Buf (hex_decode ph))) cols
    /\ In ("generatorPublicKey", Some (Buf (hex_decode gk))) cols
    /\ In ("blockSignature", Some (Buf (hex_decode bs))) cols
    /\ (exists r, In ("reward", Some r) cols
                  /\ (truthy r = true \/ r = Num 0)
                  /\ (truthy (default Undefined (o !! "reward")) = true ->
                      o !! "reward" = Some r))
    /\ (forall c, In c dbFields ->
          ~ In c ["payloadHash"; "generatorPublicKey"; "blockSignature"; "reward"] ->
          In (c, o !! c) cols).
Proof.
  intros Hl Hph Hgk Hbs.
  rewrite (save_of_hex_block h l o ph gk bs Hl Hph Hgk Hbs). simpl.
  set (reward := default Undefined (o !! "reward")).
  set (copy := <["reward" := if truthy reward then reward else Num 0]> _).
  do 2 eexists. split; [reflexivity |].
  split; [reflexivity |].
  assert (Hcol : forall c, In c dbFields ->
                   In (c, copy !! c) (map (fun c => (c, copy !! c)) dbFields)).
  { intros c Hc. apply (in_map (fun c => (c, copy !! c))). exact Hc. }
  assert (Hin : forall c v, In c dbFields -> copy !! c = v ->
                  In (c, v) (map (fun c => (c, copy !! c)) dbFields)).
  { intros c v Hc <-. apply Hcol. exact Hc. }
  cbv beta iota delta [dbFields] in *.
  assert (Hset : forall c v, In c dbFields ->
                   copy !! c = Some v ->
                   In (c, Some v) (map (fun c => (c, copy !! c)) dbFields)).
  { intros c v Hc Hv. apply Hin; assumption. }
  cbv beta iota delta [dbFields] in Hset.
  split; [apply Hset; [simpl; tauto |]; unfold copy;
          repeat (rewrite lookup_insert_ne by discriminate);
          apply lookup_insert_eq |].
  split; [apply Hset; [simpl; tauto |]; unfold copy;
          repeat (rewrite lookup_insert_ne by discriminate);
          apply lookup_insert_eq |].
  split; [apply Hset; [simpl; tauto |]; unfold copy;
          repeat (rewrite lookup_insert_ne by discriminate);
          apply lookup_insert_eq |].
  split.
  - exists (if truthy reward then reward else Num 0).
    split; [apply Hin; [simpl; tauto | apply lookup_insert_eq] |].
    split.
    + destruct (truthy reward) eqn:E; [left; exact E | right; reflexivity].
    + intros Ht. rewrite Ht. unfold reward in *.
      destruct (o !! "reward") as [r|]; [reflexivity | discriminate].
  - intros c Hc Hnot. apply Hin; [exact Hc |].
    unfold copy. rewrite !lookup_insert_ne; [reflexivity | | | |];
      intros <-; apply Hnot; simpl; tauto.
Qed.

Lemma save_inserted_columns_witness :
  let o : gmap string value :=
    {[ "id" := Str "7"; "payloadHash" := Str "0aff";
       "generatorPublicKey" := Str "c0"; "blockSignature" := Str "1234";
       "reward" := Num 5 ]} in
  let h : gmap nat (gmap string value) := {[ 0%nat := o ]} in
  exists saveBlock cols,
    (save h (Obj 0)).2 = Normal (saveBlock, cols)
    /\ map fst cols = dbFields
    /\ In ("payloadHash", Some (Buf [10; 255])) cols
    /\ In ("reward", Some (Num 5)) cols
    /\ In ("id", Some (Str "7")) cols
    /\ In ("height", None) cols.
Proof.
  intros o h.
  destruct (save_inserted_columns h 0%nat o "0aff" "c0" "1234")
    as (s & cols & Hsave & Hfst & Hph & _ & _ & (r & Hr & _ & Hown) & Hother);
    try (vm_compute; reflexivity).
  exists s, cols. split; [exact Hsave |]. split; [exact Hfst |].
  split; [exact Hph |]. split.
  - assert (Hrew : o !! "reward" = Some r) by (apply Hown; vm_compute; reflexivity).
    assert (Hval : o !! "reward" = Some (Num 5)) by (vm_compute; reflexivity).
    rewrite Hval in Hrew. injection Hrew as <-. exact Hr.
  - split.
    + replace (Some (Str "7")) with (o !! "id") by (vm_compute; reflexivity).
      apply Hother; [simpl; tauto |].
      simpl. intros [H|[H|[H|[H|[]]]]]; discriminate.
    + replace (@None value) with (o !! "height") by (vm_compute; reflexivity).
      apply Hother; [simpl; tauto |].
      simpl. intros [H|[H|[H|[H|[]]]]]; discriminate.
Defined.

End Repository.

(** ** The git helper *)

Lemma trim_start_head (s : Git.text) c rest :
  Git.trim_start s = c :: rest -> Git.is_space c = false.
Proof.
  induction s as [|a s IH]; simpl; [discriminate |].
  destruct (Git.is_space a) eqn:E; [exact IH |].
  intros [= <- <-]. exact E.
Qed.

Lemma trim_end_head (s : Git.text) c rest :
  Git.trim_end s = c :: rest -> exists rest', s = c :: rest'.
Proof.
  destruct s as [|a s]; simpl; [discriminate |].
  destruct (Git.trim_end s); [destruct (Git.is_space a); [discriminate |] |];
    intros [= <- <-]; eauto.
Qed.

Lemma trim_end_last (s : Git.text) : forall front c,
  Git.trim_end s = (front ++ [c])%list -> Git.is_space c = false.
Proof.
  induction s as [|a s IH]; intros front c; simpl.
  - destruct front; discriminate.
  - destruct (Git.trim_end s) as [|k kept] eqn:E.
    + destruct (Git.is_space a) eqn:Ea; [destruct front; discriminate |].
      destruct front as [|f front]; simpl.
      * intros [= <-]. exact Ea.
      * intros [= _ H]. destruct front; discriminate.
    + destruct front as [|f front]; simpl.
      * discriminate.
      * intros [= _ H]. apply (IH front c). exact H.
Qed.

Lemma trim_start_blank (s : Git.text) :
  Git.trim_start s = [] <-> forallb Git.is_space s = true.
Proof.
  induction s as [|a s IH]; simpl; [tauto |].
  destruct (Git.is_space a); simpl; [exact IH |].
  split; discriminate.
Qed.

Lemma trim_end_blank (s : Git.text) :
  Git.trim_end s = [] <-> forallb Git.is_space s = true.
Proof.
  induction s as [|a s IH]; simpl; [tauto |].
  destruct (Git.trim_end s) as [|k kept].
  - destruct (Git.is_space a); simpl.
    + split; [intros _; apply IH; reflexivity | reflexivity].
    + split; discriminate.
  - split; [discriminate |].
    intros H. apply andb_true_iff in H as [_ H]. apply IH in H. discriminate.
Qed.

(** [trim] leaves nothing exactly of the texts made of white space. *)
Lemma trim_blank (s : Git.text) :
  Git.trim s = [] <-> forallb Git.is_space s = true.
Proof.
  unfold Git.trim. rewrite trim_end_blank. split.
  - intros H. apply trim_start_blank.
    destruct (Git.trim_start s) as [|c rest] eqn:E; [reflexivity |].
    apply trim_start_head in E. simpl in H. rewrite E in H. discriminate.
  - intros H. apply trim_start_blank in H. rewrite H. reflexivity.
Qed.

(** X20.  [getLastCommit] returns only when what git wrote to stderr is
    blank, that is made of white space and line terminators alone (those
    beyond ASCII, such as the no-break space and U+FEFF, included), and
    then returns git's stdout without white space at either end; whenever
    stderr holds anything else it throws an [Error] with that text,
    trimmed, whatever stdout holds. *)
Theorem getLastCommit_result (spawn : Git.SpawnResult) :
  (forall hash, Git.getLastCommit spawn = Git.Returns hash ->
     (exists out err,
        Git.stdout spawn = Some out /\ Git.stderr spawn = Some err
        /\ forallb Git.is_space err = true /\ hash = Git.trim out)
     /\ (forall c rest, hash = c :: rest -> Git.is_space c = false)
     /\ (forall front c, hash = (front ++ [c])%list -> Git.is_space c = false))
  /\ (forall err, Git.stderr spawn = Some err ->
        forallb Git.is_space err = false ->
        Git.getLastCommit spawn = Git.Throws ClsError (Git.trim err)
        /\ Git.trim err <> []).
Proof.
  destruct spawn as [out err]. unfold Git.getLastCommit. simpl. split.
  - intros hash. destruct err as [e|]; [| discriminate].
    destruct (Git.trim e) eqn:Ee; [| discriminate].
    destruct out as [o|]; [| discriminate].
    intros [= <-]. apply trim_blank in Ee. split; [eauto 6 |]. split.
    + intros c rest H. unfold Git.trim in H.
      destruct (trim_end_head _ _ _ H) as [rest' H'].
      apply (trim_start_head o c rest'). exact H'.
    + intros front c H. apply (trim_end_last (Git.trim_start o) front c). exact H.
  - intros e [= ->] Hne.
    assert (Ht : Git.trim e <> []).
    { intros H. apply trim_blank in H. rewrite H in Hne. discriminate. }
    split; [| exact Ht].
    destruct (Git.trim e); [contradiction | reflexivity].
Qed.

Lemma getLastCommit_result_witness :
  let hash := Git.text_of_string "4f1a9c" in
  let warning := Git.text_of_string "warning: unsafe repository" in
  let spawn := Git.mk_spawn (Some (hash ++ [10])%list)
                            (Some (65279 :: warning ++ [160; 10])%list) in
  Git.getLastCommit spawn = Git.Throws ClsError warning
  /\ Git.getLastCommit
       (Git.mk_spawn (Some (hash ++ [10])%list) (Some [65279; 160; 8232; 10]))
     = Git.Returns hash.
Proof.
  intros hash warning spawn. split.
  - destruct (getLastCommit_result spawn) as [_ H].
    destruct (H (65279 :: warning ++ [160; 10])%list) as [Hthrow _];
      [reflexivity | vm_compute; reflexivity |].
    rewrite Hthrow. vm_compute. reflexivity.
  - vm_compute. reflexivity.
Defined.
